(** * Live dictation session engine: a shallow embedding of
      [src/hooks/useLiveSession.ts]

    The development follows the source file top to bottom: JavaScript
    strings and numbers as the code uses them, the audio encoders
    ([encode], [createBlob], [createWavBlob]), the transcript
    reconciliation done in [onmessage], and the hook's callbacks
    ([startSession], [stopSession], [pauseSession], [resumeSession],
    [cleanUpSession]) as functions on an explicit hook state. *)

From Stdlib Require Import ZArith QArith Qabs Qround Lia String Ascii.
From stdpp Require Import base option list.

Local Open Scope Z_scope.

(** ** JavaScript values *)

(** A JavaScript string is a sequence of UTF-16 code units. *)
Abbreviation jsstring := (list Z) (only parsing).

(** ASCII literals, for readable statements. *)
Definition str (s : string) : jsstring :=
  map (fun a => Z.of_N (N_of_ascii a)) (list_ascii_of_string s).

(** A Float32Array element.  Every finite binary32 value is a rational;
    the products the encoders form ([x * 32768], [s * 0x8000],
    [s * 0x7FFF] with [s] clamped) are exact in binary64, so finite
    arithmetic is carried out in [Q]. *)
Inductive float : Type :=
| Finite (q : Q)
| NaN
| Infinity (negative : bool).

(** [x * k] for a finite positive constant [k]. *)
Definition fmul (x : float) (k : Q) : float :=
  match x with
  | Finite q => Finite (q * k)
  | NaN => NaN
  | Infinity s => Infinity s
  end.

(** [x < 0]. *)
Definition fneg (x : float) : bool :=
  match x with
  | Finite q => Qnum q <? 0
  | NaN => false
  | Infinity s => s
  end.

(** [Math.min(1, x)] and [Math.max(-1, x)]: NaN is contagious. *)
Definition Math_min1 (x : float) : float :=
  match x with
  | Finite q => if Qle_bool q 1 then Finite q else Finite 1
  | NaN => NaN
  | Infinity true => Infinity true
  | Infinity false => Finite 1
  end.

Definition Math_max_neg1 (x : float) : float :=
  match x with
  | Finite q => if Qle_bool (-1) q then Finite q else Finite (-1)
  | NaN => NaN
  | Infinity true => Finite (-1)
  | Infinity false => Infinity false
  end.

(** Truncation toward zero of a rational. *)
Definition truncate (q : Q) : Z := Z.quot (Qnum q) (Z.pos (Qden q)).

(** ECMAScript [ToInt16], the conversion applied on a store into an
    [Int16Array] and by [DataView.setInt16]: NaN and the infinities
    become 0, a finite number is truncated and wrapped modulo 2^16. *)
Definition ToInt16 (x : float) : Z :=
  match x with
  | Finite q =>
      let int16bit := truncate q mod 65536 in
      if 32768 <=? int16bit then int16bit - 65536 else int16bit
  | _ => 0
  end.

(** The two bytes of a 16-bit value, low byte first (the byte order of
    [new Uint8Array(int16.buffer)] on little-endian hosts and of
    [setInt16(_, _, true)]). *)
Definition int16_bytes (v : Z) : list Z :=
  [Z.land v 255; Z.land (Z.shiftr v 8) 255].

(** ** Audio encoding *)

Definition SAMPLE_RATE : Z := 16000.
Definition BUFFER_SIZE : Z := 4096.

(** The base64 alphabet. *)
Definition b64char (i : Z) : Z :=
  if i <? 26 then 65 + i
  else if i <? 52 then 97 + (i - 26)
  else if i <? 62 then 48 + (i - 52)
  else if i =? 62 then 43
  else 47.

Fixpoint base64 (bytes : list Z) : jsstring :=
  match bytes with
  | [] => []
  | [a] =>
      [b64char (Z.shiftr a 2); b64char (Z.shiftl (Z.land a 3) 4); 61; 61]
  | [a; b] =>
      [b64char (Z.shiftr a 2);
       b64char (Z.lor (Z.shiftl (Z.land a 3) 4) (Z.shiftr b 4));
       b64char (Z.shiftl (Z.land b 15) 2); 61]
  | a :: b :: c :: rest =>
      b64char (Z.shiftr a 2)
      :: b64char (Z.lor (Z.shiftl (Z.land a 3) 4) (Z.shiftr b 4))
      :: b64char (Z.lor (Z.shiftl (Z.land b 15) 2) (Z.shiftr c 6))
      :: b64char (Z.land c 63)
      :: base64 rest
  end.

(** [btoa]: throws (here [None]) when a code unit is above 255. *)
Definition btoa (binary : jsstring) : option jsstring :=
  if forallb (fun c => (0 <=? c) && (c <=? 255)) binary
  then Some (base64 binary) else None.

(** [encode(bytes)]: [String.fromCharCode] of a byte is the code unit
    itself. *)
Definition encode (bytes : list Z) : option jsstring :=
  let binary := foldl (fun binary b => binary ++ [b]) [] bytes in
  btoa binary.

Record WireFrame := { data : jsstring; mimeType : jsstring }.

(** [createBlob(data)]. *)
Definition createBlob (data : list float) : option WireFrame :=
  let int16 := map (fun x => ToInt16 (fmul x 32768)) data in
  d ← encode (flat_map int16_bytes int16);
  Some {| data := d; mimeType := str "audio/pcm;rate=16000" |}.

(** *** The WAV container *)

(** A [DataView] over a fresh [ArrayBuffer]: a byte array.  The setters
    throw a RangeError (here [None]) when the write does not fit. *)
Abbreviation DataView := (list Z) (only parsing).

Definition setUint8 (view : DataView) (byteOffset : nat) (value : Z)
  : option DataView :=
  if (byteOffset <? length view)%nat
  then Some (<[byteOffset := Z.land value 255]> view)
  else None.

(** [setUint16(byteOffset, value, true)]. *)
Definition setUint16 (view : DataView) (byteOffset : nat) (value : Z)
  : option DataView :=
  view ← setUint8 view byteOffset value;
  setUint8 view (byteOffset + 1) (Z.shiftr value 8).

(** [setUint32(byteOffset, value, true)]. *)
Definition setUint32 (view : DataView) (byteOffset : nat) (value : Z)
  : option DataView :=
  view ← setUint8 view byteOffset value;
  view ← setUint8 view (byteOffset + 1) (Z.shiftr value 8);
  view ← setUint8 view (byteOffset + 2) (Z.shiftr value 16);
  setUint8 view (byteOffset + 3) (Z.shiftr value 24).

(** [setInt16(byteOffset, x, true)] converts the number with [ToInt16]. *)
Definition setInt16 (view : DataView) (byteOffset : nat) (x : float)
  : option DataView :=
  setUint16 view byteOffset (ToInt16 x).

(** The inner helper of [createWavBlob]. *)
Fixpoint writeString (view : DataView) (offset : nat) (string : jsstring)
  : option DataView :=
  match string with
  | [] => Some view
  | c :: rest =>
      view ← setUint8 view offset c;
      writeString view (offset + 1) rest
  end.

(** The value [createWavBlob] stores for one sample. *)
Definition wavSample (x : float) : float :=
  let s := Math_max_neg1 (Math_min1 x) in
  if fneg s then fmul s 32768 (* 0x8000 *) else fmul s 32767 (* 0x7FFF *).

(** The loop that writes the PCM data. *)
Fixpoint writePCM (view : DataView) (offset : nat) (pcmData : list float)
  : option DataView :=
  match pcmData with
  | [] => Some view
  | x :: rest =>
      view ← setInt16 view offset (wavSample x);
      writePCM view (offset + 2) rest
  end.

Record Blob := { blobBytes : list Z; blobType : jsstring }.

(** [createWavBlob(pcmData, sampleRate)]. *)
Definition createWavBlob (pcmData : list float) (sampleRate : Z)
  : option Blob :=
  let numChannels := 1 in
  let bitsPerSample := 16 in
  let bytesPerSample := bitsPerSample / 8 in
  let blockAlign := numChannels * bytesPerSample in
  let byteRate := sampleRate * blockAlign in
  let dataSize := Z.of_nat (length pcmData) * bytesPerSample in
  let view : DataView := replicate (Z.to_nat (44 + dataSize)) 0 in
  (* RIFF header *)
  view ← writeString view 0 (str "RIFF");
  view ← setUint32 view 4 (36 + dataSize);
  view ← writeString view 8 (str "WAVE");
  (* fmt subchunk *)
  view ← writeString view 12 (str "fmt ");
  view ← setUint32 view 16 16;
  view ← setUint16 view 20 1;
  view ← setUint16 view 22 numChannels;
  view ← setUint32 view 24 sampleRate;
  view ← setUint32 view 28 byteRate;
  view ← setUint16 view 32 blockAlign;
  view ← setUint16 view 34 bitsPerSample;
  (* data subchunk *)
  view ← writeString view 36 (str "data");
  view ← setUint32 view 40 dataSize;
  (* the PCM data *)
  view ← writePCM view 44 pcmData;
  Some {| blobBytes := view; blobType := str "audio/wav" |}.

(** Readers for the header fields, little-endian as written. *)
Definition getUint8 (bytes : list Z) (byteOffset : nat) : option Z :=
  bytes !! byteOffset.

Definition getUint16 (bytes : list Z) (byteOffset : nat) : option Z :=
  b0 ← getUint8 bytes byteOffset;
  b1 ← getUint8 bytes (byteOffset + 1);
  Some (b0 + 256 * b1).

Definition getUint32 (bytes : list Z) (byteOffset : nat) : option Z :=
  b0 ← getUint8 bytes byteOffset;
  b1 ← getUint8 bytes (byteOffset + 1);
  b2 ← getUint8 bytes (byteOffset + 2);
  b3 ← getUint8 bytes (byteOffset + 3);
  Some (b0 + 256 * b1 + 65536 * b2 + 16777216 * b3).

(** *** Decoding a wire frame *)

(** Modelled from the spec: the value of a base64 digit, for [atob]. *)
Definition b64val (c : Z) : option Z :=
  if (65 <=? c) && (c <=? 90) then Some (c - 65)
  else if (97 <=? c) && (c <=? 122) then Some (c - 97 + 26)
  else if (48 <=? c) && (c <=? 57) then Some (c - 48 + 52)
  else if c =? 43 then Some 62
  else if c =? 47 then Some 63
  else None.

(** Modelled from the spec: the inverse of [btoa] used by the round-trip
    property ([atob]); the source only encodes. *)
Fixpoint atob (s : jsstring) : option (list Z) :=
  match s with
  | [] => Some []
  | c1 :: c2 :: c3 :: c4 :: rest =>
      v1 ← b64val c1;
      v2 ← b64val c2;
      let b1 := Z.lor (Z.shiftl v1 2) (Z.shiftr v2 4) in
      if (c3 =? 61) && (c4 =? 61) then
        match rest with [] => Some [b1] | _ => None end
      else
        v3 ← b64val c3;
        let b2 := Z.lor (Z.shiftl (Z.land v2 15) 4) (Z.shiftr v3 2) in
        if c4 =? 61 then
          match rest with [] => Some [b1; b2] | _ => None end
        else
          v4 ← b64val c4;
          let b3 := Z.lor (Z.shiftl (Z.land v3 3) 6) v4 in
          tl ← atob rest;
          Some (b1 :: b2 :: b3 :: tl)
  | _ => None
  end.

(** Modelled from the spec: the sample reader of [decodePCM16], signed
    16-bit little-endian values of a byte sequence; the source has no
    decoder. *)
Fixpoint int16_of_bytes (bytes : list Z) : option (list Z) :=
  match bytes with
  | [] => Some []
  | lo :: hi :: rest =>
      let u := lo + 256 * hi in
      tl ← int16_of_bytes rest;
      Some ((if 32768 <=? u then u - 65536 else u) :: tl)
  | _ => None
  end.

(** Modelled from the spec: [decodePCM16], the decoder of the round-trip
    property: base64-decode, read little-endian signed 16-bit samples,
    divide by 32768.  The source has no decoder. *)
Definition decodePCM16 (d : jsstring) : option (list Q) :=
  bytes ← atob d;
  ints ← int16_of_bytes bytes;
  Some (map (fun v => (v # 32768)%Q) ints).

(** ** Transcript reconciliation: the string operations of [onmessage] *)

(** The characters matched by [\s] (and removed by [trim]): ECMAScript
    WhiteSpace and LineTerminator. *)
Definition isWhiteSpace (c : Z) : bool :=
  ((9 <=? c) && (c <=? 13)) || (c =? 32) || (c =? 160) || (c =? 5760)
  || ((8192 <=? c) && (c <=? 8202)) || (c =? 8232) || (c =? 8233)
  || (c =? 8239) || (c =? 8287) || (c =? 12288) || (c =? 65279).

Definition isLower (c : Z) : bool := (97 <=? c) && (c <=? 122).   (* [a-z] *)
Definition isUpper (c : Z) : bool := (65 <=? c) && (c <=? 90).    (* [A-Z] *)
Definition isLetter (c : Z) : bool := isLower c || isUpper c.     (* [a-zA-Z] *)
Definition isDigit (c : Z) : bool := (48 <=? c) && (c <=? 57).    (* \d *)
Definition isPunct (c : Z) : bool :=                              (* \.|\?|!|, *)
  (c =? 46) || (c =? 63) || (c =? 33) || (c =? 44).
Definition isNonSpace (c : Z) : bool := negb (isWhiteSpace c).    (* \S *)

(** [.replace(/\\n/g, '\n')]: every backslash followed by [n] becomes a
    line feed; the scan resumes after the match. *)
Fixpoint replaceEscapedNewlines (s : jsstring) : jsstring :=
  match s with
  | a :: (b :: rest) as tl =>
      if (a =? 92) && (b =? 110)
      then 10 :: replaceEscapedNewlines rest
      else a :: replaceEscapedNewlines tl
  | _ => s
  end.

(** [.replace(/(P1)(P2)/g, '$1 $2')] for one-character classes [P1] and
    [P2]: matches are found left to right and do not overlap, the scan
    resumes after the second character of a match. *)
Fixpoint insertSpaces (p1 p2 : Z -> bool) (s : jsstring) : jsstring :=
  match s with
  | a :: (b :: rest) as tl =>
      if p1 a && p2 b
      then a :: 32 :: b :: insertSpaces p1 p2 rest
      else a :: insertSpaces p1 p2 tl
  | _ => s
  end.

(** The display form computed in [onmessage]. *)
Definition formattedText (buffer : jsstring) : jsstring :=
  insertSpaces isLetter isDigit
    (insertSpaces isPunct isNonSpace
       (insertSpaces isLower isUpper
          (replaceEscapedNewlines buffer))).

(** [.split('\n')]. *)
Fixpoint split_lines (s : jsstring) : list jsstring :=
  match s with
  | [] => [[]]
  | c :: rest =>
      if c =? 10 then [] :: split_lines rest
      else match split_lines rest with
           | line :: lines => (c :: line) :: lines
           | [] => [[c]]
           end
  end.

(** [.trim()]. *)
Fixpoint trimStart (s : jsstring) : jsstring :=
  match s with
  | c :: rest => if isWhiteSpace c then trimStart rest else s
  | [] => []
  end.

Definition trimEnd (s : jsstring) : jsstring :=
  reverse (trimStart (reverse s)).

Definition trim (s : jsstring) : jsstring := trimEnd (trimStart s).

(** [/\s$/.test(s)] and [/^\s/.test(s)]. *)
Definition endsWithSpace (s : jsstring) : bool :=
  match last s with Some c => isWhiteSpace c | None => false end.

Definition startsWithSpace (s : jsstring) : bool :=
  match s with c :: _ => isWhiteSpace c | [] => false end.

(** JavaScript truthiness of the values the hook tests. *)
Definition truthy_string (s : jsstring) : bool :=
  match s with [] => false | _ => true end.

Definition truthy_number (n : option Z) : bool :=
  match n with Some t => negb (t =? 0) | None => false end.

(** ** The hook [useLiveSession] *)

(** The promise returned by [live.connect], with the callbacks chained on
    it by [.then] while it is pending: a frame to send
    ([onaudioprocess]) or a close request ([cleanUpSession]). *)
Inductive Reaction : Type :=
| SendFrame (pcmData : list float)
| CloseSession.

Inductive Promise : Type :=
| NoPromise
| Pending (reactions : list Reaction)
| Fulfilled
| Rejected.

(** The state of one hook instance together with what its environment
    has observed.
    - [status] .. [isPaused]: the [useState] cells (the value last set);
    - [sessionPromiseRef] .. [isPausedForCallback]: the [useRef] cells;
      for object references [true] stands for non-null;
    - [sessionPromise]: the promise of the latest [live.connect];
    - [sentFrames]: the arguments of [session.sendRealtimeInput], in call
      order; [transcriptUpdates]: the arguments of [onTranscriptUpdate];
    - [mediaRequests], [connects]: calls of [getUserMedia] and of
      [live.connect]; [tracksStopped], [closeRequests]: streams whose
      tracks were stopped and calls of [session.close]. *)
Record Hook : Type := {
  status : jsstring;
  error : jsstring;
  isSessionActive : bool;
  isPaused : bool;
  sessionPromiseRef : bool;
  inputAudioContextRef : bool;
  scriptProcessorNodeRef : bool;
  sourceNodeRef : bool;
  streamRef : bool;
  bufferRef : jsstring;
  lastMessageTimeRef : option Z;
  capturedAudioChunksRef : list (list float);
  isSessionActiveForCallback : bool;
  isPausedForCallback : bool;
  sessionPromise : Promise;
  sentFrames : list WireFrame;
  transcriptUpdates : list (list jsstring);
  mediaRequests : nat;
  tracksStopped : nat;
  connects : nat;
  closeRequests : nat
}.

(** Field updates. *)
Definition set_status (v : jsstring) (w : Hook) : Hook :=
  {| status := v; error := error w; isSessionActive := isSessionActive w;
     isPaused := isPaused w; sessionPromiseRef := sessionPromiseRef w;
     inputAudioContextRef := inputAudioContextRef w;
     scriptProcessorNodeRef := scriptProcessorNodeRef w;
     sourceNodeRef := sourceNodeRef w; streamRef := streamRef w;
     bufferRef := bufferRef w; lastMessageTimeRef := lastMessageTimeRef w;
     capturedAudioChunksRef := capturedAudioChunksRef w;
     isSessionActiveForCallback := isSessionActiveForCallback w;
     isPausedForCallback := isPausedForCallback w;
     sessionPromise := sessionPromise w; sentFrames := sentFrames w;
     transcriptUpdates := transcriptUpdates w;
     mediaRequests := mediaRequests w; tracksStopped := tracksStopped w;
     connects := connects w; closeRequests := closeRequests w |}.

Definition set_error (v : jsstring) (w : Hook) : Hook :=
  {| status := status w; error := v; isSessionActive := isSessionActive w;
     isPaused := isPaused w; sessionPromiseRef := sessionPromiseRef w;
     inputAudioContextRef := inputAudioContextRef w;
     scriptProcessorNodeRef := scriptProcessorNodeRef w;
     sourceNodeRef := sourceNodeRef w; streamRef := streamRef w;
     bufferRef := bufferRef w; lastMessageTimeRef := lastMessageTimeRef w;
     capturedAudioChunksRef := capturedAudioChunksRef w;
     isSessionActiveForCallback := isSessionActiveForCallback w;
     isPausedForCallback := isPausedForCallback w;
     sessionPromise := sessionPromise w; sentFrames := sentFrames w;
     transcriptUpdates := transcriptUpdates w;
     mediaRequests := mediaRequests w; tracksStopped := tracksStopped w;
     connects := connects w; closeRequests := closeRequests w |}.

Definition set_isSessionActive (v : bool) (w : Hook) : Hook :=
  {| status := status w; error := error w; isSessionActive := v;
     isPaused := isPaused w; sessionPromiseRef := sessionPromiseRef w;
     inputAudioContextRef := inputAudioContextRef w;
     scriptProcessorNodeRef := scriptProcessorNodeRef w;
     sourceNodeRef := sourceNodeRef w; streamRef := streamRef w;
     bufferRef := bufferRef w; lastMessageTimeRef := lastMessageTimeRef w;
     capturedAudioChunksRef := capturedAudioChunksRef w;
     isSessionActiveForCallback := isSessionActiveForCallback w;
     isPausedForCallback := isPausedForCallback w;
     sessionPromise := sessionPromise w; sentFrames := sentFrames w;
     transcriptUpdates := transcriptUpdates w;
     mediaRequests := mediaRequests w; tracksStopped := tracksStopped w;
     connects := connects w; closeRequests := closeRequests w |}.

Definition set_isPaused (v : bool) (w : Hook) : Hook :=
  {| status := status w; error := error w;
     isSessionActive := isSessionActive w; isPaused := v;
     sessionPromiseRef := sessionPromiseRef w;
     inputAudioContextRef := inputAudioContextRef w;
     scriptProcessorNodeRef := scriptProcessorNodeRef w;
     sourceNodeRef := sourceNodeRef w; streamRef := streamRef w;
     bufferRef := bufferRef w; lastMessageTimeRef := lastMessageTimeRef w;
     capturedAudioChunksRef := capturedAudioChunksRef w;
     isSessionActiveForCallback := isSessionActiveForCallback w;
     isPausedForCallback := isPausedForCallback w;
     sessionPromise := sessionPromise w; sentFrames := sentFrames w;
     transcriptUpdates := transcriptUpdates w;
     mediaRequests := mediaRequests w; tracksStopped := tracksStopped w;
     connects := connects w; closeRequests := closeRequests w |}.

Definition set_sessionPromiseRef (v : bool) (w : Hook) : Hook :=
  {| status := status w; error := error w;
     isSessionActive := isSessionActive w; isPaused := isPaused w;
     sessionPromiseRef := v;
     inputAudioContextRef := inputAudioContextRef w;
     scriptProcessorNodeRef := scriptProcessorNodeRef w;
     sourceNodeRef := sourceNodeRef w; streamRef := streamRef w;
     bufferRef := bufferRef w; lastMessageTimeRef := lastMessageTimeRef w;
     capturedAudioChunksRef := capturedAudioChunksRef w;
     isSessionActiveForCallback := isSessionActiveForCallback w;
     isPausedForCallback := isPausedForCallback w;
     sessionPromise := sessionPromise w; sentFrames := sentFrames w;
     transcriptUpdates := transcriptUpdates w;
     mediaRequests := mediaRequests w; tracksStopped := tracksStopped w;
     connects := connects w; closeRequests := closeRequests w |}.

Definition set_inputAudioContextRef (v : bool) (w : Hook) : Hook :=
  {| status := status w; error := error w;
     isSessionActive := isSessionActive w; isPaused := isPaused w;
     sessionPromiseRef := sessionPromiseRef w; inputAudioContextRef := v;
     scriptProcessorNodeRef := scriptProcessorNodeRef w;
     sourceNodeRef := sourceNodeRef w; streamRef := streamRef w;
     bufferRef := bufferRef w; lastMessageTimeRef := lastMessageTimeRef w;
     capturedAudioChunksRef := capturedAudioChunksRef w;
     isSessionActiveForCallback := isSessionActiveForCallback w;
     isPausedForCallback := isPausedForCallback w;
     sessionPromise := sessionPromise w; sentFrames := sentFrames w;
     transcriptUpdates := transcriptUpdates w;
     mediaRequests := mediaRequests w; tracksStopped := tracksStopped w;
     connects := connects w; closeRequests := closeRequests w |}.

Definition set_scriptProcessorNodeRef (v : bool) (w : Hook) : Hook :=
  {| status := status w; error := error w;
     isSessionActive := isSessionActive w; isPaused := isPaused w;
     sessionPromiseRef := sessionPromiseRef w;
     inputAudioContextRef := inputAudioContextRef w;
     scriptProcessorNodeRef := v; sourceNodeRef := sourceNodeRef w;
     streamRef := streamRef w; bufferRef := bufferRef w;
     lastMessageTimeRef := lastMessageTimeRef w;
     capturedAudioChunksRef := capturedAudioChunksRef w;
     isSessionActiveForCallback := isSessionActiveForCallback w;
     isPausedForCallback := isPausedForCallback w;
     sessionPromise := sessionPromise w; sentFrames := sentFrames w;
     transcriptUpdates := transcriptUpdates w;
     mediaRequests := mediaRequests w; tracksStopped := tracksStopped w;
     connects := connects w; closeRequests := closeRequests w |}.

Definition set_sourceNodeRef (v : bool) (w : Hook) : Hook :=
  {| status := status w; error := error w;
     isSessionActive := isSessionActive w; isPaused := isPaused w;
     sessionPromiseRef := sessionPromiseRef w;
     inputAudioContextRef := inputAudioContextRef w;
     scriptProcessorNodeRef := scriptProcessorNodeRef w;
     sourceNodeRef := v; streamRef := streamRef w;
     bufferRef := bufferRef w; lastMessageTimeRef := lastMessageTimeRef w;
     capturedAudioChunksRef := capturedAudioChunksRef w;
     isSessionActiveForCallback := isSessionActiveForCallback w;
     isPausedForCallback := isPausedForCallback w;
     sessionPromise := sessionPromise w; sentFrames := sentFrames w;
     transcriptUpdates := transcriptUpdates w;
     mediaRequests := mediaRequests w; tracksStopped := tracksStopped w;
     connects := connects w; closeRequests := closeRequests w |}.

Definition set_streamRef (v : bool) (w : Hook) : Hook :=
  {| status := status w; error := error w;
     isSessionActive := isSessionActive w; isPaused := isPaused w;
     sessionPromiseRef := sessionPromiseRef w;
     inputAudioContextRef := inputAudioContextRef w;
     scriptProcessorNodeRef := scriptProcessorNodeRef w;
     sourceNodeRef := sourceNodeRef w; streamRef := v;
     bufferRef := bufferRef w; lastMessageTimeRef := lastMessageTimeRef w;
     capturedAudioChunksRef := capturedAudioChunksRef w;
     isSessionActiveForCallback := isSessionActiveForCallback w;
     isPausedForCallback := isPausedForCallback w;
     sessionPromise := sessionPromise w; sentFrames := sentFrames w;
     transcriptUpdates := transcriptUpdates w;
     mediaRequests := mediaRequests w; tracksStopped := tracksStopped w;
     connects := connects w; closeRequests := closeRequests w |}.

Definition set_bufferRef (v : jsstring) (w : Hook) : Hook :=
  {| status := status w; error := error w;
     isSessionActive := isSessionActive w; isPaused := isPaused w;
     sessionPromiseRef := sessionPromiseRef w;
     inputAudioContextRef := inputAudioContextRef w;
     scriptProcessorNodeRef := scriptProcessorNodeRef w;
     sourceNodeRef := sourceNodeRef w; streamRef := streamRef w;
     bufferRef := v; lastMessageTimeRef := lastMessageTimeRef w;
     capturedAudioChunksRef := capturedAudioChunksRef w;
     isSessionActiveForCallback := isSessionActiveForCallback w;
     isPausedForCallback := isPausedForCallback w;
     sessionPromise := sessionPromise w; sentFrames := sentFrames w;
     transcriptUpdates := transcriptUpdates w;
     mediaRequests := mediaRequests w; tracksStopped := tracksStopped w;
     connects := connects w; closeRequests := closeRequests w |}.

Definition set_lastMessageTimeRef (v : option Z) (w : Hook) : Hook :=
  {| status := status w; error := error w;
     isSessionActive := isSessionActive w; isPaused := isPaused w;
     sessionPromiseRef := sessionPromiseRef w;
     inputAudioContextRef := inputAudioContextRef w;
     scriptProcessorNodeRef := scriptProcessorNodeRef w;
     sourceNodeRef := sourceNodeRef w; streamRef := streamRef w;
     bufferRef := bufferRef w; lastMessageTimeRef := v;
     capturedAudioChunksRef := capturedAudioChunksRef w;
     isSessionActiveForCallback := isSessionActiveForCallback w;
     isPausedForCallback := isPausedForCallback w;
     sessionPromise := sessionPromise w; sentFrames := sentFrames w;
     transcriptUpdates := transcriptUpdates w;
     mediaRequests := mediaRequests w; tracksStopped := tracksStopped w;
     connects := connects w; closeRequests := closeRequests w |}.

Definition set_capturedAudioChunksRef (v : list (list float)) (w : Hook) : Hook :=
  {| status := status w; error := error w;
     isSessionActive := isSessionActive w; isPaused := isPaused w;
     sessionPromiseRef := sessionPromiseRef w;
     inputAudioContextRef := inputAudioContextRef w;
     scriptProcessorNodeRef := scriptProcessorNodeRef w;
     sourceNodeRef := sourceNodeRef w; streamRef := streamRef w;
     bufferRef := bufferRef w; lastMessageTimeRef := lastMessageTimeRef w;
     capturedAudioChunksRef := v;
     isSessionActiveForCallback := isSessionActiveForCallback w;
     isPausedForCallback := isPausedForCallback w;
     sessionPromise := sessionPromise w; sentFrames := sentFrames w;
     transcriptUpdates := transcriptUpdates w;
     mediaRequests := mediaRequests w; tracksStopped := tracksStopped w;
     connects := connects w; closeRequests := closeRequests w |}.

Definition set_isSessionActiveForCallback (v : bool) (w : Hook) : Hook :=
  {| status := status w; error := error w;
     isSessionActive := isSessionActive w; isPaused := isPaused w;
     sessionPromiseRef := sessionPromiseRef w;
     inputAudioContextRef := inputAudioContextRef w;
     scriptProcessorNodeRef := scriptProcessorNodeRef w;
     sourceNodeRef := sourceNodeRef w; streamRef := streamRef w;
     bufferRef := bufferRef w; lastMessageTimeRef := lastMessageTimeRef w;
     capturedAudioChunksRef := capturedAudioChunksRef w;
     isSessionActiveForCallback := v;
     isPausedForCallback := isPausedForCallback w;
     sessionPromise := sessionPromise w; sentFrames := sentFrames w;
     transcriptUpdates := transcriptUpdates w;
     mediaRequests := mediaRequests w; tracksStopped := tracksStopped w;
     connects := connects w; closeRequests := closeRequests w |}.

Definition set_isPausedForCallback (v : bool) (w : Hook) : Hook :=
  {| status := status w; error := error w;
     isSessionActive := isSessionActive w; isPaused := isPaused w;
     sessionPromiseRef := sessionPromiseRef w;
     inputAudioContextRef := inputAudioContextRef w;
     scriptProcessorNodeRef := scriptProcessorNodeRef w;
     sourceNodeRef := sourceNodeRef w; streamRef := streamRef w;
     bufferRef := bufferRef w; lastMessageTimeRef := lastMessageTimeRef w;
     capturedAudioChunksRef := capturedAudioChunksRef w;
     isSessionActiveForCallback := isSessionActiveForCallback w;
     isPausedForCallback := v; sessionPromise := sessionPromise w;
     sentFrames := sentFrames w; transcriptUpdates := transcriptUpdates w;
     mediaRequests := mediaRequests w; tracksStopped := tracksStopped w;
     connects := connects w; closeRequests := closeRequests w |}.

Definition set_sessionPromise (v : Promise) (w : Hook) : Hook :=
  {| status := status w; error := error w;
     isSessionActive := isSessionActive w; isPaused := isPaused w;
     sessionPromiseRef := sessionPromiseRef w;
     inputAudioContextRef := inputAudioContextRef w;
     scriptProcessorNodeRef := scriptProcessorNodeRef w;
     sourceNodeRef := sourceNodeRef w; streamRef := streamRef w;
     bufferRef := bufferRef w; lastMessageTimeRef := lastMessageTimeRef w;
     capturedAudioChunksRef := capturedAudioChunksRef w;
     isSessionActiveForCallback := isSessionActiveForCallback w;
     isPausedForCallback := isPausedForCallback w; sessionPromise := v;
     sentFrames := sentFrames w; transcriptUpdates := transcriptUpdates w;
     mediaRequests := mediaRequests w; tracksStopped := tracksStopped w;
     connects := connects w; closeRequests := closeRequests w |}.

Definition set_sentFrames (v : list WireFrame) (w : Hook) : Hook :=
  {| status := status w; error := error w;
     isSessionActive := isSessionActive w; isPaused := isPaused w;
     sessionPromiseRef := sessionPromiseRef w;
     inputAudioContextRef := inputAudioContextRef w;
     scriptProcessorNodeRef := scriptProcessorNodeRef w;
     sourceNodeRef := sourceNodeRef w; streamRef := streamRef w;
     bufferRef := bufferRef w; lastMessageTimeRef := lastMessageTimeRef w;
     capturedAudioChunksRef := capturedAudioChunksRef w;
     isSessionActiveForCallback := isSessionActiveForCallback w;
     isPausedForCallback := isPausedForCallback w;
     sessionPromise := sessionPromise w; sentFrames := v;
     transcriptUpdates := transcriptUpdates w;
     mediaRequests := mediaRequests w; tracksStopped := tracksStopped w;
     connects := connects w; closeRequests := closeRequests w |}.

Definition set_transcriptUpdates (v : list (list jsstring)) (w : Hook) : Hook :=
  {| status := status w; error := error w;
     isSessionActive := isSessionActive w; isPaused := isPaused w;
     sessionPromiseRef := sessionPromiseRef w;
     inputAudioContextRef := inputAudioContextRef w;
     scriptProcessorNodeRef := scriptProcessorNodeRef w;
     sourceNodeRef := sourceNodeRef w; streamRef := streamRef w;
     bufferRef := bufferRef w; lastMessageTimeRef := lastMessageTimeRef w;
     capturedAudioChunksRef := capturedAudioChunksRef w;
     isSessionActiveForCallback := isSessionActiveForCallback w;
     isPausedForCallback := isPausedForCallback w;
     sessionPromise := sessionPromise w; sentFrames := sentFrames w;
     transcriptUpdates := v; mediaRequests := mediaRequests w;
     tracksStopped := tracksStopped w; connects := connects w;
     closeRequests := closeRequests w |}.

Definition set_mediaRequests (v : nat) (w : Hook) : Hook :=
  {| status := status w; error := error w;
     isSessionActive := isSessionActive w; isPaused := isPaused w;
     sessionPromiseRef := sessionPromiseRef w;
     inputAudioContextRef := inputAudioContextRef w;
     scriptProcessorNodeRef := scriptProcessorNodeRef w;
     sourceNodeRef := sourceNodeRef w; streamRef := streamRef w;
     bufferRef := bufferRef w; lastMessageTimeRef := lastMessageTimeRef w;
     capturedAudioChunksRef := capturedAudioChunksRef w;
     isSessionActiveForCallback := isSessionActiveForCallback w;
     isPausedForCallback := isPausedForCallback w;
     sessionPromise := sessionPromise w; sentFrames := sentFrames w;
     transcriptUpdates := transcriptUpdates w; mediaRequests := v;
     tracksStopped := tracksStopped w; connects := connects w;
     closeRequests := closeRequests w |}.

Definition set_tracksStopped (v : nat) (w : Hook) : Hook :=
  {| status := status w; error := error w;
     isSessionActive := isSessionActive w; isPaused := isPaused w;
     sessionPromiseRef := sessionPromiseRef w;
     inputAudioContextRef := inputAudioContextRef w;
     scriptProcessorNodeRef := scriptProcessorNodeRef w;
     sourceNodeRef := sourceNodeRef w; streamRef := streamRef w;
     bufferRef := bufferRef w; lastMessageTimeRef := lastMessageTimeRef w;
     capturedAudioChunksRef := capturedAudioChunksRef w;
     isSessionActiveForCallback := isSessionActiveForCallback w;
     isPausedForCallback := isPausedForCallback w;
     sessionPromise := sessionPromise w; sentFrames := sentFrames w;
     transcriptUpdates := transcriptUpdates w;
     mediaRequests := mediaRequests w; tracksStopped := v;
     connects := connects w; closeRequests := closeRequests w |}.

Definition set_connects (v : nat) (w : Hook) : Hook :=
  {| status := status w; error := error w;
     isSessionActive := isSessionActive w; isPaused := isPaused w;
     sessionPromiseRef := sessionPromiseRef w;
     inputAudioContextRef := inputAudioContextRef w;
     scriptProcessorNodeRef := scriptProcessorNodeRef w;
     sourceNodeRef := sourceNodeRef w; streamRef := streamRef w;
     bufferRef := bufferRef w; lastMessageTimeRef := lastMessageTimeRef w;
     capturedAudioChunksRef := capturedAudioChunksRef w;
     isSessionActiveForCallback := isSessionActiveForCallback w;
     isPausedForCallback := isPausedForCallback w;
     sessionPromise := sessionPromise w; sentFrames := sentFrames w;
     transcriptUpdates := transcriptUpdates w;
     mediaRequests := mediaRequests w; tracksStopped := tracksStopped w;
     connects := v; closeRequests := closeRequests w |}.

Definition set_closeRequests (v : nat) (w : Hook) : Hook :=
  {| status := status w; error := error w;
     isSessionActive := isSessionActive w; isPaused := isPaused w;
     sessionPromiseRef := sessionPromiseRef w;
     inputAudioContextRef := inputAudioContextRef w;
     scriptProcessorNodeRef := scriptProcessorNodeRef w;
     sourceNodeRef := sourceNodeRef w; streamRef := streamRef w;
     bufferRef := bufferRef w; lastMessageTimeRef := lastMessageTimeRef w;
     capturedAudioChunksRef := capturedAudioChunksRef w;
     isSessionActiveForCallback := isSessionActiveForCallback w;
     isPausedForCallback := isPausedForCallback w;
     sessionPromise := sessionPromise w; sentFrames := sentFrames w;
     transcriptUpdates := transcriptUpdates w;
     mediaRequests := mediaRequests w; tracksStopped := tracksStopped w;
     connects := connects w; closeRequests := v |}.

(** The callbacks are sequences of assignments: a state monad over
    [Hook]. *)
Definition M (A : Type) : Type := Hook -> A * Hook.

#[export] Instance M_ret : MRet M := fun A a w => (a, w).
#[export] Instance M_bind : MBind M :=
  fun A B f m w => let '(a, w') := m w in f a w'.

Definition get {A : Type} (f : Hook -> A) : M A := fun w => (f w, w).
Definition modify (f : Hook -> Hook) : M unit := fun w => (tt, f w).
Definition when (b : bool) (m : M unit) : M unit :=
  if b then m else mret tt.
Definition exec {A : Type} (m : M A) (w : Hook) : Hook := snd (m w).

(** The state setters and the environment's entry points. *)
Definition setStatus (s : jsstring) : M unit := modify (set_status s).
Definition setError (s : jsstring) : M unit := modify (set_error s).
Definition setIsSessionActive (b : bool) : M unit :=
  modify (set_isSessionActive b).
Definition setIsPaused (b : bool) : M unit := modify (set_isPaused b).

Definition onTranscriptUpdate (lines : list jsstring) : M unit :=
  modify (fun w => set_transcriptUpdates (transcriptUpdates w ++ [lines]) w).

Definition stopTracks : M unit :=
  modify (fun w => set_tracksStopped (S (tracksStopped w)) w).

Definition sendRealtimeInput (media : WireFrame) : M unit :=
  modify (fun w => set_sentFrames (sentFrames w ++ [media]) w).

Definition closeSession : M unit :=
  modify (fun w => set_closeRequests (S (closeRequests w)) w).

(** [promise.then(reaction)]: run now when the promise is fulfilled, queue
    while it is pending, drop when it is rejected (every chain in the
    source ends in a [.catch] that swallows the rejection). *)
Definition then_ (run : Reaction -> M unit) (r : Reaction) : M unit :=
  p ← get sessionPromise;
  match p with
  | Fulfilled => run r
  | Pending rs => modify (set_sessionPromise (Pending (rs ++ [r])))
  | NoPromise | Rejected => mret tt
  end.

(** The body of the two reactions.  An exception of [createBlob] is
    swallowed by the [.catch] of the chain. *)
Definition react (r : Reaction) : M unit :=
  match r with
  | SendFrame pcmData =>
      active ← get isSessionActiveForCallback;
      paused ← get isPausedForCallback;
      if active && negb paused then
        match createBlob pcmData with
        | Some media => sendRealtimeInput media
        | None => mret tt
        end
      else mret tt
  | CloseSession => closeSession
  end.

Fixpoint reactAll (rs : list Reaction) : M unit :=
  match rs with
  | [] => mret tt
  | r :: rest => react r ;; reactAll rest
  end.

(** The two [useEffect]s that mirror the state into the refs run when a
    render commits. *)
Definition render : M unit :=
  active ← get isSessionActive;
  modify (set_isSessionActiveForCallback active) ;;
  paused ← get isPaused;
  modify (set_isPausedForCallback paused).

Definition stopAudio : M unit :=
  stream ← get streamRef;
  when stream stopTracks ;;
  modify (set_streamRef false) ;;
  modify (set_scriptProcessorNodeRef false) ;;
  modify (set_sourceNodeRef false) ;;
  modify (set_inputAudioContextRef false).

Definition cleanUpSession : M unit :=
  setIsSessionActive false ;;
  setIsPaused false ;;
  stopAudio ;;
  promise ← get sessionPromiseRef;
  when promise (then_ react CloseSession) ;;
  modify (set_sessionPromiseRef false) ;;
  modify (set_bufferRef []) ;;
  modify (set_lastMessageTimeRef None) ;;
  modify (set_capturedAudioChunksRef []).

Definition pauseSession : M unit :=
  active ← get isSessionActiveForCallback;
  when active
    (setIsPaused true ;;
     setStatus (str "Live session paused...")).

Definition resumeSession : M unit :=
  active ← get isSessionActiveForCallback;
  when active
    (setIsPaused false ;;
     setStatus (str "Live session resumed. Listening...")).

(** The messages of the channel, as far as [onmessage] reads them. *)
Record Part := { text : option jsstring }.
Record Content := { parts : option (list Part) }.
Record LiveServerContent := { modelTurn : option Content }.
Record LiveServerMessage := { serverContent : option LiveServerContent }.

(** What [stopSession] returns. *)
Record StopResult := { transcript : jsstring; audioBlob : option Blob }.

(** A call either returns or throws. *)
Inductive Completion (A : Type) : Type :=
| Return (a : A)
| Throw.
Arguments Return {A} a.
Arguments Throw {A}.

(** *** ASCII upper-casing

    [String.prototype.toUpperCase] restricted to Basic Latin, where it is
    the usual shift of [a-z]; used to instantiate the hook below. *)
Definition asciiToUpperCase (s : jsstring) : jsstring :=
  map (fun c => if isLower c then c - 32 else c) s.

Section Session.

(** [String.prototype.toUpperCase], a built-in of the host (full Unicode
    case mapping). *)
Variable toUpperCase : jsstring -> jsstring.

(** [line ? line.charAt(0).toUpperCase() + line.slice(1) : ''] *)
Definition capitalizeLine (line : jsstring) : jsstring :=
  match line with
  | [] => []
  | c :: rest => toUpperCase [c] ++ rest
  end.

(** [message.serverContent?.modelTurn?.parts] *)
Definition modelTurnParts (message : LiveServerMessage)
  : option (list Part) :=
  sc ← serverContent message;
  mt ← modelTurn sc;
  parts mt.

(** [parts.map(part => part.text).filter(Boolean).join('')] *)
Definition responseTextOf (ps : list Part) : jsstring :=
  concat (filter (fun t => truthy_string t = true)
                 (omap text ps)).

(** The pause heuristic of [onmessage]. *)
Definition separatorFor (timeSinceLastMessage : Z)
    (buffer responseText : jsstring) : jsstring :=
  if (300 <? timeSinceLastMessage)
     && (0 <? length buffer)%nat
     && negb (endsWithSpace buffer)
     && negb (startsWithSpace responseText)
  then str " " else [].

(** [onmessage], with [now] the value of [Date.now()]. *)
Definition onmessage (now : Z) (message : LiveServerMessage) : M unit :=
  last ← get lastMessageTimeRef;
  let timeSinceLastMessage :=
    if truthy_number last then now - default 0 last else 0 in
  modify (set_lastMessageTimeRef (Some now)) ;;
  match modelTurnParts message with
  | Some ps =>
      let responseText := responseTextOf ps in
      when (truthy_string responseText)
        (buffer ← get bufferRef;
         let separator :=
           separatorFor timeSinceLastMessage buffer responseText in
         modify (set_bufferRef (buffer ++ separator ++ responseText)) ;;
         buffer ← get bufferRef;
         modify (set_bufferRef (formattedText buffer)) ;;
         buffer ← get bufferRef;
         let lines := split_lines buffer in
         let capitalizedLines := map capitalizeLine lines in
         onTranscriptUpdate capitalizedLines)
  | None => mret tt
  end.

Definition onopen : M unit :=
  setStatus (str "Connection opened. Listening...") ;;
  setIsSessionActive true.

Definition onclose (reason : jsstring) : M unit :=
  active ← get isSessionActiveForCallback;
  when active
    (setStatus (str "Connection closed: " ++ reason) ;;
     cleanUpSession).

Definition onerror (message : jsstring) : M unit :=
  setError (str "Error: " ++ message) ;;
  cleanUpSession.

(** [scriptProcessorNode.onaudioprocess] *)
Definition onaudioprocess (pcmData : list float) : M unit :=
  chunks ← get capturedAudioChunksRef;
  modify (set_capturedAudioChunksRef (chunks ++ [pcmData])) ;;
  then_ react (SendFrame pcmData).

(** The promise of [live.connect] settles. *)
Definition connectFulfilled : M unit :=
  p ← get sessionPromise;
  match p with
  | Pending rs => modify (set_sessionPromise Fulfilled) ;; reactAll rs
  | _ => mret tt
  end.

(** [sessionPromise.catch(err => ...)] *)
Definition connectRejected (message : jsstring) : M unit :=
  p ← get sessionPromise;
  match p with
  | Pending _ =>
      modify (set_sessionPromise Rejected) ;;
      active ← get isSessionActiveForCallback;
      when (negb active)
        (setError (str "Failed to start session: " ++ message) ;;
         setStatus (str "Session failed to start.") ;;
         cleanUpSession)
  | _ => mret tt
  end.

(** [startSession] up to its [await]: the result tells whether the call
    is now waiting for [getUserMedia].  [apiKey] is the value of
    [localStorage.getItem('gemini_api_key')]. *)
Definition startSession (apiKey : option jsstring) : M bool :=
  active ← get isSessionActiveForCallback;
  if (active : bool) then (mret false : M bool)
  else if negb (truthy_string (default [] apiKey)) then
    setError (str "Missing API Key. Please add it in settings.") ;;
    mret false
  else
    setError [] ;;
    setStatus (str "Connecting...") ;;
    modify (set_bufferRef []) ;;
    modify (set_capturedAudioChunksRef []) ;;
    modify (set_lastMessageTimeRef None) ;;
    onTranscriptUpdate [] ;;
    setIsPaused false ;;
    (* 1. Start Audio *)
    stream ← get streamRef;
    when stream stopTracks ;;
    modify (fun w => set_mediaRequests (S (mediaRequests w)) w) ;;
    mret true.

(** [startSession] after the [await], when [getUserMedia] resolved. *)
Definition startSession_granted : M unit :=
  modify (set_streamRef true) ;;
  modify (set_inputAudioContextRef true) ;;
  modify (set_sourceNodeRef true) ;;
  (* 2. Connect to Gemini *)
  modify (fun w => set_connects (S (connects w)) w) ;;
  modify (set_sessionPromise (Pending [])) ;;
  modify (set_sessionPromiseRef true) ;;
  (* 3. Set up Audio Processor *)
  modify (set_scriptProcessorNodeRef true).

(** [startSession] after the [await], when [getUserMedia] rejected: the
    [catch] block. *)
Definition startSession_denied (message : jsstring) : M unit :=
  setError (str "Failed to start session: " ++ message) ;;
  setStatus (str "Session failed to start.") ;;
  cleanUpSession.

(** [stopSession] *)
Definition stopSession : M (Completion StopResult) :=
  active ← get isSessionActiveForCallback;
  if negb active then
    (mret (Return {| transcript := []; audioBlob := None |})
     : M (Completion StopResult))
  else
    setStatus (str "Session stopped.") ;;
    buffer ← get bufferRef;
    let finalTranscript := trim buffer in
    chunks ← get capturedAudioChunksRef;
    if (0 <? length chunks)%nat then
      let concatenated := concat chunks in
      match createWavBlob concatenated SAMPLE_RATE with
      | Some blob =>
          cleanUpSession ;;
          mret (Return {| transcript := finalTranscript;
                          audioBlob := Some blob |})
      | None => mret Throw
      end
    else
      cleanUpSession ;;
      mret (Return {| transcript := finalTranscript; audioBlob := None |}).

(** The events a hook instance reacts to. *)
Inductive Event : Type :=
| StartSession (apiKey : option jsstring)
| MediaGranted
| MediaDenied (message : jsstring)
| ConnectFulfilled
| ConnectRejected (message : jsstring)
| OnOpen
| OnClose (reason : jsstring)
| OnError (message : jsstring)
| OnMessage (now : Z) (message : LiveServerMessage)
| OnAudioProcess (pcmData : list float)
| PauseSession
| ResumeSession
| StopSession
| Render.

Definition step (w : Hook) (e : Event) : Hook :=
  match e with
  | StartSession apiKey => exec (startSession apiKey) w
  | MediaGranted => exec startSession_granted w
  | MediaDenied message => exec (startSession_denied message) w
  | ConnectFulfilled => exec connectFulfilled w
  | ConnectRejected message => exec (connectRejected message) w
  | OnOpen => exec onopen w
  | OnClose reason => exec (onclose reason) w
  | OnError message => exec (onerror message) w
  | OnMessage now message => exec (onmessage now message) w
  | OnAudioProcess pcmData => exec (onaudioprocess pcmData) w
  | PauseSession => exec pauseSession w
  | ResumeSession => exec resumeSession w
  | StopSession => exec stopSession w
  | Render => exec render w
  end.

Definition run (w : Hook) (es : list Event) : Hook := foldl step w es.

(** The hook before its first use. *)
Definition initial : Hook :=
  {| status := []; error := []; isSessionActive := false; isPaused := false;
     sessionPromiseRef := false; inputAudioContextRef := false;
     scriptProcessorNodeRef := false; sourceNodeRef := false;
     streamRef := false; bufferRef := []; lastMessageTimeRef := None;
     capturedAudioChunksRef := [];
     isSessionActiveForCallback := false; isPausedForCallback := false;
     sessionPromise := NoPromise; sentFrames := []; transcriptUpdates := [];
     mediaRequests := 0; tracksStopped := 0; connects := 0;
     closeRequests := 0 |}.

(** A message carrying one text part. *)
Definition textMessage (t : jsstring) : LiveServerMessage :=
  {| serverContent :=
       Some {| modelTurn := Some {| parts := Some [{| text := Some t |}] |} |} |}.

(** A message without model turn (for instance a turn-complete notice). *)
Definition emptyMessage : LiveServerMessage :=
  {| serverContent := Some {| modelTurn := None |} |}.

End Session.

(** ** Reference layouts and example states used by the statements *)

(** The bytes of a 16-bit and of a 32-bit field, as the setters lay them
    out. *)
Definition le16 (v : Z) : list Z :=
  [Z.land v 255; Z.land (Z.shiftr v 8) 255].

Definition le32 (v : Z) : list Z :=
  [Z.land v 255; Z.land (Z.shiftr v 8) 255;
   Z.land (Z.shiftr v 16) 255; Z.land (Z.shiftr v 24) 255].

(** The 44 bytes of the header for [n] samples at rate [sampleRate]. *)
Definition wavHeader (n : nat) (sampleRate : Z) : list Z :=
  str "RIFF" ++ le32 (36 + Z.of_nat n * 2) ++ str "WAVE"
  ++ str "fmt " ++ le32 16 ++ le16 1 ++ le16 1
  ++ le32 sampleRate ++ le32 (sampleRate * 2) ++ le16 2 ++ le16 16
  ++ str "data" ++ le32 (Z.of_nat n * 2).

(** The payload the container carries for a sample block. *)
Definition wavPayload (pcmData : list float) : list Z :=
  flat_map (fun x => int16_bytes (ToInt16 (wavSample x))) pcmData.

(** A hook that has started a session and waits for the channel to open
    (the spec's Connecting state). *)
Definition connecting : Hook :=
  exec startSession_granted
    (exec (startSession (Some (str "key"))) initial).

(** A hook whose channel is open and whose refs have caught up (the
    spec's Active state), at the start of the session. *)
Definition active : Hook :=
  exec render (exec onopen (exec connectFulfilled connecting)).

(** An active session that has captured one frame and received the
    fragment [hello] at time 1000. *)
Definition dictating : Hook :=
  run asciiToUpperCase active
    [OnAudioProcess [Finite (1 # 2); Finite (-1 # 4)];
     OnMessage 1000 (textMessage (str "hello"))].

(** No two adjacent characters of [s] are related by [bad]. *)
Fixpoint nopair (bad : Z -> Z -> bool) (s : list Z) : bool :=
  match s with
  | a :: (b :: _) as tl => negb (bad a b) && nopair bad tl
  | _ => true
  end.

(** The pairs the four replacements of [formattedText] look for. *)
Definition escapedNewline (a b : Z) : bool := (a =? 92) && (b =? 110).
Definition camelCase (a b : Z) : bool := isLower a && isUpper b.
Definition unspacedPunct (a b : Z) : bool := isPunct a && isNonSpace b.
Definition letterDigit (a b : Z) : bool := isLetter a && isDigit b.
Definition punctPunct (a b : Z) : bool := isPunct a && isPunct b.

(** A value a [Uint8Array] can hold. *)
Definition is_byte (b : Z) : Prop := 0 <= b < 256.

(** A string with its spaces taken out. *)
Definition unspaced (s : list Z) : list Z := filter (fun c => c <> 32) s.

(** The events that neither start nor end a session: they may add a
    frame to the archive and must not lose one. *)
Definition keepsArchive (e : Event) : bool :=
  match e with
  | MediaGranted | ConnectFulfilled | OnOpen | OnMessage _ _
  | OnAudioProcess _ | PauseSession | ResumeSession | Render => true
  | _ => false
  end.

(** The frames a sequence of events delivers, in order. *)
Definition framesOf (es : list Event) : list (list float) :=
  omap (fun e => match e with OnAudioProcess pcmData => Some pcmData
                         | _ => None end) es.

Definition isRender (e : Event) : bool :=
  match e with Render => true | _ => false end.

(** The test of the send path fails: the session is not active or it is
    paused, as the callbacks see it. *)
Definition gateClosed (w : Hook) : bool :=
  negb (isSessionActiveForCallback w) || isPausedForCallback w.

(** ** The callers of the hook

    [LiveDictation] keeps the lines delivered by the hook in its state
    [findings]; [handleLiveDictationComplete] of [App] receives what
    [stopSession] returned. *)

(** [handleUpdateFinding] of [LiveDictation], as a function of the
    component's [findings].  The elements of [findings] are strings, so
    [newFindings[index] !== undefined] holds exactly at the indices of the
    array. *)
Definition handleUpdateFinding (findings : list jsstring) (index : Z)
    (newText : jsstring) : list jsstring :=
  let newFindings := findings in
  if (0 <=? index) && (index <? Z.of_nat (length newFindings))
  then <[Z.to_nat index := newText]> newFindings
  else newFindings.

(** [transcript.split('\n').filter(line => line.trim() !== '')] of
    [handleLiveDictationComplete]. *)
Definition processedText (transcript : jsstring) : list jsstring :=
  filter (fun line => trim line <> []) (split_lines transcript).

(** ** The hook [useAudioRecorder]

    The recorder hook keeps two pieces of React state that its callbacks
    only write, and four refs.  The browser's [MediaRecorder] is modelled
    by its [state] and by the [mimeType] option it was constructed with;
    [getUserMedia] and the recorder's events are inputs. *)

Module AudioRecorder.

(** [MediaRecorder.state] *)
Inductive RecordingState : Type := inactive | recording | paused.

Record MediaRecorder : Type := {
  state : RecordingState;
  options : option jsstring   (* [None]: the browser's default format *)
}.

(** What a [catch] receives: whether it is an [Error], and its [name]. *)
Record Thrown : Type := { instanceofError : bool; name : jsstring }.

Record Recorder : Type := {
  (* React state *)
  isRecording : bool;
  isPaused : bool;
  error : option jsstring;
  (* refs *)
  mediaRecorderRef : option MediaRecorder;
  audioChunksRef : list Blob;
  mimeTypeRef : jsstring;
  streamRef : bool;                 (* [false] is [null] *)
  (* what the hook has asked of the browser *)
  mediaRequests : nat;
  tracksStopped : nat
}.

Definition set_isRecording (v : bool) (w : Recorder) : Recorder :=
  {| isRecording := v; isPaused := isPaused w; error := error w;
     mediaRecorderRef := mediaRecorderRef w;
     audioChunksRef := audioChunksRef w; mimeTypeRef := mimeTypeRef w;
     streamRef := streamRef w; mediaRequests := mediaRequests w;
     tracksStopped := tracksStopped w |}.

Definition set_isPaused (v : bool) (w : Recorder) : Recorder :=
  {| isRecording := isRecording w; isPaused := v; error := error w;
     mediaRecorderRef := mediaRecorderRef w;
     audioChunksRef := audioChunksRef w; mimeTypeRef := mimeTypeRef w;
     streamRef := streamRef w; mediaRequests := mediaRequests w;
     tracksStopped := tracksStopped w |}.

Definition set_error (v : option jsstring) (w : Recorder) : Recorder :=
  {| isRecording := isRecording w; isPaused := isPaused w; error := v;
     mediaRecorderRef := mediaRecorderRef w;
     audioChunksRef := audioChunksRef w; mimeTypeRef := mimeTypeRef w;
     streamRef := streamRef w; mediaRequests := mediaRequests w;
     tracksStopped := tracksStopped w |}.

Definition set_mediaRecorderRef (v : option MediaRecorder) (w : Recorder)
  : Recorder :=
  {| isRecording := isRecording w; isPaused := isPaused w; error := error w;
     mediaRecorderRef := v;
     audioChunksRef := audioChunksRef w; mimeTypeRef := mimeTypeRef w;
     streamRef := streamRef w; mediaRequests := mediaRequests w;
     tracksStopped := tracksStopped w |}.

Definition set_audioChunksRef (v : list Blob) (w : Recorder) : Recorder :=
  {| isRecording := isRecording w; isPaused := isPaused w; error := error w;
     mediaRecorderRef := mediaRecorderRef w;
     audioChunksRef := v; mimeTypeRef := mimeTypeRef w;
     streamRef := streamRef w; mediaRequests := mediaRequests w;
     tracksStopped := tracksStopped w |}.

Definition set_mimeTypeRef (v : jsstring) (w : Recorder) : Recorder :=
  {| isRecording := isRecording w; isPaused := isPaused w; error := error w;
     mediaRecorderRef := mediaRecorderRef w;
     audioChunksRef := audioChunksRef w; mimeTypeRef := v;
     streamRef := streamRef w; mediaRequests := mediaRequests w;
     tracksStopped := tracksStopped w |}.

Definition set_streamRef (v : bool) (w : Recorder) : Recorder :=
  {| isRecording := isRecording w; isPaused := isPaused w; error := error w;
     mediaRecorderRef := mediaRecorderRef w;
     audioChunksRef := audioChunksRef w; mimeTypeRef := mimeTypeRef w;
     streamRef := v; mediaRequests := mediaRequests w;
     tracksStopped := tracksStopped w |}.

Definition set_mediaRequests (v : nat) (w : Recorder) : Recorder :=
  {| isRecording := isRecording w; isPaused := isPaused w; error := error w;
     mediaRecorderRef := mediaRecorderRef w;
     audioChunksRef := audioChunksRef w; mimeTypeRef := mimeTypeRef w;
     streamRef := streamRef w; mediaRequests := v;
     tracksStopped := tracksStopped w |}.

Definition set_tracksStopped (v : nat) (w : Recorder) : Recorder :=
  {| isRecording := isRecording w; isPaused := isPaused w; error := error w;
     mediaRecorderRef := mediaRecorderRef w;
     audioChunksRef := audioChunksRef w; mimeTypeRef := mimeTypeRef w;
     streamRef := streamRef w; mediaRequests := mediaRequests w;
     tracksStopped := v |}.

(** The hook before its first use. *)
Definition initial : Recorder :=
  {| isRecording := false; isPaused := false; error := None;
     mediaRecorderRef := None; audioChunksRef := []; mimeTypeRef := [];
     streamRef := false; mediaRequests := 0; tracksStopped := 0 |}.

(** [mediaRecorderRef.current && mediaRecorderRef.current.state !== 'inactive'] *)
Definition notInactive (w : Recorder) : bool :=
  match mediaRecorderRef w with
  | Some r => match state r with inactive => false | _ => true end
  | None => false
  end.

Definition MimeTypes : list jsstring :=
  [ str "audio/mpeg";
    str "audio/ogg; codecs=opus";
    str "audio/webm; codecs=opus";
    str "audio/ogg";
    str "audio/webm" ].

(** [new Blob(blobParts, { type })]: the parts one after the other.  The
    types the hook passes are in lower case already. *)
Definition newBlob (blobParts : list Blob) (type : jsstring) : Blob :=
  {| blobBytes := concat (map blobBytes blobParts); blobType := type |}.

(** The [catch] clause of [startRecording]. *)
Definition startRecording_catch (err : Thrown) (w : Recorder) : Recorder :=
  let w :=
    if instanceofError err
       && (bool_decide (name err = str "NotAllowedError")
           || bool_decide (name err = str "PermissionDeniedError"))
    then set_error (Some (str "Microphone permission denied. Please allow microphone access in your browser settings.")) w
    else set_error (Some (str "Could not access the microphone. Please ensure it is connected and enabled.")) w in
  set_isRecording false w.

(** [startRecording] up to its [await]; [mediaDevices] tells whether
    [navigator.mediaDevices.getUserMedia] exists.  The result tells whether
    the device has been requested. *)
Definition startRecording (mediaDevices : bool) (w : Recorder)
  : bool * Recorder :=
  let w := set_error None w in
  if notInactive w then (false, w)
  else if negb mediaDevices then
    (false,
     set_error (Some (str "Audio recording is not supported in this browser.")) w)
  else (true, set_mediaRequests (S (mediaRequests w)) w).

(** [startRecording] after [getUserMedia] has delivered the stream.
    [isTypeSupported] is [MediaRecorder.isTypeSupported]; [thrown] is what
    the construction or the start of the recorder throws, if anything. *)
Definition startRecording_granted (isTypeSupported : jsstring -> bool)
    (thrown : option Thrown) (w : Recorder) : Recorder :=
  let w := set_streamRef true w in
  let w := set_audioChunksRef [] w in
  let supportedMimeType := List.find isTypeSupported MimeTypes in
  let options :=
    match supportedMimeType with
    | Some type => if truthy_string type then Some type else None
    | None => None
    end in
  let w :=
    set_mimeTypeRef
      (match options with
       | Some type => if truthy_string type then type else str "audio/ogg"
       | None => str "audio/ogg"
       end) w in
  match thrown with
  | Some err => startRecording_catch err w
  | None =>
      let w :=
        set_mediaRecorderRef
          (Some {| state := recording; options := options |}) w in
      let w := set_isRecording true w in
      set_isPaused false w
  end.

(** [startRecording] after [getUserMedia] has been refused. *)
Definition startRecording_denied (err : Thrown) (w : Recorder) : Recorder :=
  startRecording_catch err w.

(** The [dataavailable] listener. *)
Definition ondataavailable (data : Blob) (w : Recorder) : Recorder :=
  set_audioChunksRef (audioChunksRef w ++ [data]) w.

Definition pauseRecording (w : Recorder) : Recorder :=
  match mediaRecorderRef w with
  | Some r =>
      match state r with
      | recording =>
          let w :=
            set_mediaRecorderRef
              (Some {| state := paused; options := options r |}) w in
          set_isPaused true w
      | _ => w
      end
  | None => w
  end.

Definition resumeRecording (w : Recorder) : Recorder :=
  match mediaRecorderRef w with
  | Some r =>
      match state r with
      | paused =>
          let w :=
            set_mediaRecorderRef
              (Some {| state := recording; options := options r |}) w in
          set_isPaused false w
      | _ => w
      end
  | None => w
  end.

(** [cleanupAndSetState] of [stopRecording]. *)
Definition cleanupAndSetState (w : Recorder) : Recorder :=
  let w :=
    if streamRef w then set_tracksStopped (S (tracksStopped w)) w else w in
  let w := set_streamRef false w in
  let w := set_mediaRecorderRef None w in
  let w := set_isRecording false w in
  set_isPaused false w.

(** The promise returned by [stopRecording]: resolved at once, or waiting
    for the recorder's [stop] or [error] event. *)
Inductive Stopping : Type :=
| Resolved (blob : Blob)
| Waiting.

(** [stopRecording]: on a recorder that is not inactive the listeners are
    added and [recorder.stop()] makes it inactive. *)
Definition stopRecording (w : Recorder) : Stopping * Recorder :=
  if notInactive w then
    match mediaRecorderRef w with
    | Some r =>
        (Waiting,
         set_mediaRecorderRef
           (Some {| state := inactive; options := options r |}) w)
    | None => (Waiting, w)
    end
  else (Resolved (newBlob [] (mimeTypeRef w)), w).

(** The [stop] listener: the blob the waiting promise resolves with. *)
Definition onstop (w : Recorder) : Blob * Recorder :=
  let newAudioBlob := newBlob (audioChunksRef w) (mimeTypeRef w) in
  (newAudioBlob, cleanupAndSetState w).

(** The [error] listener: the waiting promise is rejected. *)
Definition onrecordererror (w : Recorder) : Recorder :=
  cleanupAndSetState w.

(** What may happen while a recording runs. *)
Inductive Action : Type :=
| DataAvailable (data : Blob)
| PauseRecording
| ResumeRecording
| StartRecording (mediaDevices : bool).

Definition act (w : Recorder) (a : Action) : Recorder :=
  match a with
  | DataAvailable data => ondataavailable data w
  | PauseRecording => pauseRecording w
  | ResumeRecording => resumeRecording w
  | StartRecording mediaDevices => snd (startRecording mediaDevices w)
  end.

Definition dataOf (actions : list Action) : list Blob :=
  omap (fun a => match a with DataAvailable data => Some data
                         | _ => None end) actions.

End AudioRecorder.

(** * Properties *)

(** ** Little-endian fields *)

Lemma land_255 (v : Z) : Z.land v 255 = v mod 256.
Proof. exact (Z.land_ones v 8 ltac:(lia)). Qed.

Lemma shiftr_8 (v : Z) : Z.shiftr v 8 = v / 256.
Proof. exact (Z.shiftr_div_pow2 v 8 ltac:(lia)). Qed.

Lemma shiftr_16 (v : Z) : Z.shiftr v 16 = v / 65536.
Proof. exact (Z.shiftr_div_pow2 v 16 ltac:(lia)). Qed.

Lemma shiftr_24 (v : Z) : Z.shiftr v 24 = v / 16777216.
Proof. exact (Z.shiftr_div_pow2 v 24 ltac:(lia)). Qed.

(** Reading back a 32-bit little-endian field. *)
Lemma le32_decode (v : Z) :
  0 <= v < 4294967296 ->
  Z.land v 255 + 256 * Z.land (Z.shiftr v 8) 255
  + 65536 * Z.land (Z.shiftr v 16) 255
  + 16777216 * Z.land (Z.shiftr v 24) 255 = v.
Proof.
  intros Hv. rewrite !land_255, shiftr_8, shiftr_16, shiftr_24.
  Z.div_mod_to_equations. lia.
Qed.

(** ** The layout of the container *)

Lemma setUint8_app (pre post : list Z) (x v : Z) :
  setUint8 (pre ++ x :: post) (length pre) v
  = Some (pre ++ Z.land v 255 :: post).
Proof.
  unfold setUint8.
  assert (Hlt : (length pre <? length (pre ++ x :: post))%nat = true).
  { apply Nat.ltb_lt. rewrite length_app. simpl. lia. }
  rewrite Hlt. f_equal.
  rewrite insert_app_r_alt by lia.
  rewrite Nat.sub_diag. reflexivity.
Qed.

Lemma setInt16_app (pre post : list Z) (x y : Z) (s : float) :
  setInt16 (pre ++ x :: y :: post) (length pre) s
  = Some (pre ++ int16_bytes (ToInt16 s) ++ post).
Proof.
  unfold setInt16, setUint16.
  rewrite setUint8_app. simpl.
  replace (length pre + 1)%nat with (length (pre ++ [Z.land (ToInt16 s) 255]))
    by (rewrite length_app; reflexivity).
  rewrite (cons_middle _ pre), app_assoc.
  rewrite setUint8_app. rewrite <- app_assoc. reflexivity.
Qed.

Lemma writePCM_app (pcmData : list float) :
  forall pre : list Z,
    writePCM (pre ++ replicate (2 * length pcmData) 0) (length pre) pcmData
    = Some (pre ++ wavPayload pcmData).
Proof.
  induction pcmData as [| x rest IH]; intros pre.
  - simpl. reflexivity.
  - replace (2 * length (x :: rest))%nat with (S (S (2 * length rest)))
      by (simpl; lia).
    cbn [replicate writePCM].
    rewrite setInt16_app. cbn [mbind option_bind].
    replace (length pre + 2)%nat
      with (length (pre ++ int16_bytes (ToInt16 (wavSample x))))
      by (rewrite length_app; reflexivity).
    rewrite app_assoc, IH, <- app_assoc. reflexivity.
Qed.

(** [createWavBlob] never throws, and its result is the header followed
    by the payload. *)
Lemma createWavBlob_layout (pcmData : list float) (sampleRate : Z) :
  createWavBlob pcmData sampleRate
  = Some {| blobBytes := wavHeader (length pcmData) sampleRate
                         ++ wavPayload pcmData;
            blobType := str "audio/wav" |}.
Proof.
  unfold createWavBlob.
  change (16 / 8) with 2. change (1 * 2) with 2.
  replace (Z.to_nat (44 + Z.of_nat (length pcmData) * 2))
    with (44 + 2 * length pcmData)%nat by lia.
  rewrite replicate_add.
  transitivity
    (view ← writePCM (wavHeader (length pcmData) sampleRate
                      ++ replicate (2 * length pcmData) 0) 44 pcmData;
     Some {| blobBytes := view; blobType := str "audio/wav" |}).
  - unfold wavHeader.
    generalize (36 + Z.of_nat (length pcmData) * 2).
    generalize (Z.of_nat (length pcmData) * 2).
    generalize (replicate (2 * length pcmData) 0).
    generalize (sampleRate * 2).
    intros byteRate tail dataSize riffSize.
    cbn -[Z.land Z.shiftr]. reflexivity.
  - change 44%nat with (length (wavHeader (length pcmData) sampleRate)).
    rewrite writePCM_app. reflexivity.
Qed.

Lemma wavPayload_length (pcmData : list float) :
  length (wavPayload pcmData) = (2 * length pcmData)%nat.
Proof.
  induction pcmData as [| x rest IH]; [reflexivity |].
  unfold wavPayload in *. cbn [flat_map length app int16_bytes].
  rewrite IH. simpl. lia.
Qed.

(** C5: a container built from [n] samples at rate [r] carries [2n] in
    the data-chunk size field (offset 40), [2r] in the byte-rate field
    (offset 28), 2 and 16 in the block-align and bits-per-sample fields
    (offsets 32 and 34), and is [44 + 2n] bytes long.  The two 32-bit
    fields hold their value as long as it fits in 32 bits. *)
Theorem createWavBlob_header (pcmData : list float) (sampleRate : Z) :
  0 <= 2 * sampleRate < 2 ^ 32 ->
  2 * Z.of_nat (length pcmData) < 2 ^ 32 ->
  exists blob : Blob,
    createWavBlob pcmData sampleRate = Some blob
    /\ getUint32 (blobBytes blob) 40 = Some (2 * Z.of_nat (length pcmData))
    /\ getUint32 (blobBytes blob) 28 = Some (2 * sampleRate)
    /\ getUint16 (blobBytes blob) 32 = Some 2
    /\ getUint16 (blobBytes blob) 34 = Some 16
    /\ length (blobBytes blob) = (44 + 2 * length pcmData)%nat.
Proof.
  intros Hr Hn. change (2 ^ 32) with 4294967296 in *.
  rewrite createWavBlob_layout. eexists. split; [reflexivity |].
  cbn [blobBytes]. split; [| split; [| split; [| split]]].
  - unfold getUint32, getUint8.
    cbn -[Z.land Z.shiftr Z.mul Z.add Z.of_nat].
    f_equal. rewrite le32_decode; lia.
  - unfold getUint32, getUint8.
    cbn -[Z.land Z.shiftr Z.mul Z.add Z.of_nat].
    f_equal. rewrite le32_decode; lia.
  - reflexivity.
  - reflexivity.
  - rewrite length_app, wavPayload_length. reflexivity.
Qed.

Lemma createWavBlob_header_witness :
  exists blob : Blob,
    createWavBlob [Finite (1 # 2); Finite (-1 # 4); Finite 0] SAMPLE_RATE
    = Some blob
    /\ getUint32 (blobBytes blob) 40 = Some 6
    /\ getUint32 (blobBytes blob) 28 = Some 32000
    /\ getUint16 (blobBytes blob) 32 = Some 2
    /\ getUint16 (blobBytes blob) 34 = Some 16
    /\ length (blobBytes blob) = 50%nat.
Proof.
  apply (createWavBlob_header
           [Finite (1 # 2); Finite (-1 # 4); Finite 0] SAMPLE_RATE);
    vm_compute; intuition congruence.
Defined.

(** ** Quantization *)

Lemma Qle_bool_true (x y : Q) : (x <= y)%Q -> Qle_bool x y = true.
Proof. apply Qle_bool_iff. Qed.

(** Clamping leaves a sample of [-1, 1] unchanged. *)
Lemma clamp_in_range (q : Q) :
  (-1 <= q)%Q -> (q <= 1)%Q ->
  Math_max_neg1 (Math_min1 (Finite q)) = Finite q.
Proof.
  intros Hlo Hhi. unfold Math_min1. rewrite (Qle_bool_true _ _ Hhi).
  unfold Math_max_neg1. rewrite (Qle_bool_true _ _ Hlo). reflexivity.
Qed.

Lemma truncate_scale (a k : Z) (d : positive) :
  truncate ((a # d) * inject_Z k) = Z.quot (a * k) (Z.pos d).
Proof.
  unfold truncate, Qmult, inject_Z. cbn [Qnum Qden].
  rewrite Pos.mul_1_r. reflexivity.
Qed.

(** [ToInt16] is the identity on the 16-bit signed range. *)
Lemma wrap16_small (t : Z) :
  -32768 <= t < 32768 ->
  (let int16bit := t mod 65536 in
   if 32768 <=? int16bit then int16bit - 65536 else int16bit) = t.
Proof.
  intros Ht. cbv zeta.
  destruct (Z.leb_spec 32768 (t mod 65536)); Z.div_mod_to_equations; lia.
Qed.

(** C4, as the code has it: on [-1, 0] the container stores the value the
    frame encoder produces; on (0, 1) it stores the truncation of
    [s * 32767], which is the frame encoder's value or one less. *)
Theorem wav_quantization_vs_frame (q : Q) :
  (-1 <= q)%Q -> (q < 1)%Q ->
  ((q <= 0)%Q ->
     ToInt16 (wavSample (Finite q)) = ToInt16 (fmul (Finite q) 32768))
  /\ ((0 < q)%Q ->
        ToInt16 (wavSample (Finite q)) = truncate (q * 32767)
        /\ (ToInt16 (wavSample (Finite q)) = ToInt16 (fmul (Finite q) 32768)
            \/ ToInt16 (wavSample (Finite q))
               = ToInt16 (fmul (Finite q) 32768) - 1)).
Proof.
  intros Hlo Hhi.
  assert (Hle : (q <= 1)%Q) by (apply Qlt_le_weak; assumption).
  unfold wavSample. rewrite (clamp_in_range q Hlo Hle).
  destruct q as [a d].
  unfold Qle, Qlt in *. cbn [Qnum Qden fneg fmul] in *.
  split.
  - intros Hneg.
    destruct (Z.ltb_spec a 0) as [Ha | Ha]; [reflexivity |].
    assert (a = 0) by lia. subst a. reflexivity.
  - intros Hpos.
    destruct (Z.ltb_spec a 0) as [Ha | Ha]; [lia |].
    cbn [ToInt16 fmul].
    change 32767%Q with (inject_Z 32767).
    change 32768%Q with (inject_Z 32768).
    rewrite !truncate_scale.
    assert (Hd : 0 < Z.pos d) by lia.
    assert (Ha1 : 0 < a < Z.pos d) by lia.
    rewrite !Z.quot_div_nonneg by lia.
    pose proof (Z.div_mod (a * 32767) (Z.pos d) ltac:(lia)) as E1.
    pose proof (Z.mod_pos_bound (a * 32767) (Z.pos d) Hd) as B1.
    pose proof (Z.div_mod (a * 32768) (Z.pos d) ltac:(lia)) as E2.
    pose proof (Z.mod_pos_bound (a * 32768) (Z.pos d) Hd) as B2.
    set (t1 := a * 32767 / Z.pos d) in *.
    set (t2 := a * 32768 / Z.pos d) in *.
    assert (Ht1 : 0 <= t1 < 32768) by nia.
    assert (Ht2 : 0 <= t2 < 32768) by nia.
    assert (Hdiff : t2 = t1 \/ t2 = t1 + 1) by nia.
    rewrite !wrap16_small by lia.
    split; [reflexivity | lia].
Qed.

Lemma wav_quantization_vs_frame_witness :
  ToInt16 (wavSample (Finite (1 # 4))) = truncate ((1 # 4) * 32767)
  /\ (ToInt16 (wavSample (Finite (1 # 4)))
      = ToInt16 (fmul (Finite (1 # 4)) 32768)
      \/ ToInt16 (wavSample (Finite (1 # 4)))
         = ToInt16 (fmul (Finite (1 # 4)) 32768) - 1).
Proof.
  apply (wav_quantization_vs_frame (1 # 4)); reflexivity || discriminate.
Defined.

(** C4, as the spec states it, fails at one half: the container stores
    16383 where the frame encoder stores 16384. *)
Lemma wav_quantization_differs :
  ~ (forall q : Q,
       (-1 <= q)%Q -> (q <= 1)%Q ->
       ToInt16 (wavSample (Finite q)) = ToInt16 (fmul (Finite q) 32768)).
Proof.
  intros H. specialize (H (1 # 2)).
  assert (E : ToInt16 (wavSample (Finite (1 # 2))) = 16383) by reflexivity.
  assert (F : ToInt16 (fmul (Finite (1 # 2)) 32768) = 16384) by reflexivity.
  rewrite E, F in H.
  assert (16383 = 16384) by (apply H; discriminate).
  discriminate.
Qed.

(** ** The frame encoder *)

Lemma foldl_snoc (bytes acc : list Z) :
  foldl (fun binary b => binary ++ [b]) acc bytes = acc ++ bytes.
Proof.
  revert acc. induction bytes as [| b rest IH]; intros acc; cbn.
  - rewrite app_nil_r. reflexivity.
  - rewrite IH, <- app_assoc. reflexivity.
Qed.

Lemma int16_bytes_in_range (ints : list Z) :
  forallb (fun c => (0 <=? c) && (c <=? 255)) (flat_map int16_bytes ints)
  = true.
Proof.
  induction ints as [| v rest IH]; [reflexivity |].
  cbn [flat_map int16_bytes app forallb]. rewrite IH, !land_255.
  pose proof (Z.mod_pos_bound v 256 ltac:(lia)).
  pose proof (Z.mod_pos_bound (Z.shiftr v 8) 256 ltac:(lia)).
  repeat (apply andb_true_intro; split); try reflexivity;
    apply Z.leb_le; lia.
Qed.

(** [createBlob] never throws: its bytes come out of a [Uint8Array]. *)
Lemma createBlob_total (pcmData : list float) :
  createBlob pcmData
  = Some {| data := base64 (flat_map int16_bytes
                              (map (fun x => ToInt16 (fmul x 32768))
                                   pcmData));
            mimeType := str "audio/pcm;rate=16000" |}.
Proof.
  unfold createBlob, encode, btoa.
  rewrite foldl_snoc, app_nil_l, int16_bytes_in_range. reflexivity.
Qed.

(** C3 at full scale: the sample 1.0 is stored as -32768 (bytes 00 80,
    base64 [AIA=]) and decodes to -1, two whole units away. *)
Theorem createBlob_full_scale_wraps :
  exists w : WireFrame,
    createBlob [Finite 1] = Some w
    /\ data w = str "AIA="
    /\ decodePCM16 (data w) = Some [(-32768 # 32768)%Q]
    /\ ~ (Qabs ((-32768 # 32768) - 1) <= 1 # 32768)%Q.
Proof.
  eexists. split; [reflexivity |]. split; [reflexivity |].
  split; [reflexivity |]. intros H. vm_compute in H. apply H. reflexivity.
Qed.

(** *** The round trip below full scale *)

(** Bit operations on small fields, as arithmetic. *)
Lemma lor_shiftl_add (hi lo k : Z) :
  0 <= k -> 0 <= lo < 2 ^ k ->
  Z.lor (Z.shiftl hi k) lo = hi * 2 ^ k + lo.
Proof.
  intros Hk Hlo.
  rewrite <- Z.shiftl_mul_pow2 by assumption.
  rewrite <- (Zbitwise.Z.add_lor_land (Z.shiftl hi k) lo).
  assert (Hz : Z.land (Z.shiftl hi k) lo = 0).
  { apply Z.bits_inj'. intros i Hi.
    rewrite Z.land_spec, Z.bits_0.
    destruct (Z.lt_ge_cases i k) as [Hlt | Hge].
    - rewrite Z.shiftl_spec_low by assumption. reflexivity.
    - rewrite <- (Z.mod_small lo (2 ^ k)) by assumption.
      rewrite Z.mod_pow2_bits_high by lia. apply andb_false_r. }
  rewrite Hz. lia.
Qed.

Lemma land_ones_mod (x k : Z) : 0 <= k -> Z.land x (Z.ones k) = x mod 2 ^ k.
Proof. intros Hk. apply Z.land_ones. assumption. Qed.

Ltac bits_to_arith :=
  change 3 with (Z.ones 2) in *; change 15 with (Z.ones 4) in *;
  change 63 with (Z.ones 6) in *; change 255 with (Z.ones 8) in *;
  rewrite ?land_ones_mod, ?Z.shiftr_div_pow2 by lia;
  repeat rewrite lor_shiftl_add
    by (try lia;
        try (split; [apply Z.div_pos | apply Z.div_lt_upper_bound]; lia);
        try (apply Z.mod_pos_bound; lia));
  rewrite ?Z.shiftl_mul_pow2 by lia;
  change (2 ^ 2) with 4 in *; change (2 ^ 4) with 16 in *;
  change (2 ^ 6) with 64 in *; change (2 ^ 8) with 256 in *.

Lemma b64val_b64char (i : Z) : 0 <= i < 64 -> b64val (b64char i) = Some i.
Proof.
  intros Hi. unfold b64char.
  repeat match goal with
    | |- context [Z.ltb ?a ?b] => destruct (Z.ltb_spec a b)
    | |- context [Z.eqb ?a ?b] => destruct (Z.eqb_spec a b)
    end; unfold b64val;
  repeat match goal with
    | |- context [Z.leb ?a ?b] => destruct (Z.leb_spec a b); try lia; cbn
    | |- context [Z.eqb ?a ?b] => destruct (Z.eqb_spec a b); try lia; cbn
    end; f_equal; lia.
Qed.

Lemma b64char_not_pad (i : Z) : 0 <= i -> (b64char i =? 61) = false.
Proof.
  intros Hi. apply Z.eqb_neq. unfold b64char.
  repeat match goal with
    | |- context [Z.ltb ?a ?b] => destruct (Z.ltb_spec a b)
    | |- context [Z.eqb ?a ?b] => destruct (Z.eqb_spec a b)
    end; lia.
Qed.

Lemma sextet_1 (a : Z) : is_byte a -> 0 <= Z.shiftr a 2 < 64.
Proof. unfold is_byte. intros H. bits_to_arith. Z.div_mod_to_equations. lia. Qed.

Lemma sextet_2 (a b : Z) :
  is_byte a -> is_byte b ->
  0 <= Z.lor (Z.shiftl (Z.land a 3) 4) (Z.shiftr b 4) < 64.
Proof.
  unfold is_byte. intros Ha Hb. bits_to_arith. Z.div_mod_to_equations. lia.
Qed.

Lemma sextet_3 (b c : Z) :
  is_byte b -> is_byte c ->
  0 <= Z.lor (Z.shiftl (Z.land b 15) 2) (Z.shiftr c 6) < 64.
Proof.
  unfold is_byte. intros Hb Hc. bits_to_arith. Z.div_mod_to_equations. lia.
Qed.

Lemma sextet_4 (c : Z) : is_byte c -> 0 <= Z.land c 63 < 64.
Proof. unfold is_byte. intros H. bits_to_arith. Z.div_mod_to_equations. lia. Qed.

Lemma sextet_2_last (a : Z) :
  is_byte a -> 0 <= Z.shiftl (Z.land a 3) 4 < 64.
Proof. unfold is_byte. intros H. bits_to_arith. Z.div_mod_to_equations. lia. Qed.

Lemma sextet_3_last (b : Z) :
  is_byte b -> 0 <= Z.shiftl (Z.land b 15) 2 < 64.
Proof. unfold is_byte. intros H. bits_to_arith. Z.div_mod_to_equations. lia. Qed.

(** The three bytes of a group, recovered from its four sextets. *)
Lemma unpack_1 (a v2 : Z) :
  is_byte a -> 0 <= v2 < 64 -> v2 / 16 = a mod 4 ->
  Z.lor (Z.shiftl (Z.shiftr a 2) 2) (Z.shiftr v2 4) = a.
Proof.
  unfold is_byte. intros Ha Hv E. bits_to_arith.
  rewrite E. Z.div_mod_to_equations. lia.
Qed.

Lemma unpack_2 (b v2 v3 : Z) :
  is_byte b -> 0 <= v2 < 64 -> 0 <= v3 < 64 ->
  v2 mod 16 = b / 16 -> v3 / 4 = b mod 16 ->
  Z.lor (Z.shiftl (Z.land v2 15) 4) (Z.shiftr v3 2) = b.
Proof.
  unfold is_byte. intros Hb Hv2 Hv3 E2 E3. bits_to_arith.
  rewrite E2, E3. Z.div_mod_to_equations. lia.
Qed.

Lemma unpack_3 (c v3 : Z) :
  is_byte c -> 0 <= v3 < 64 -> v3 mod 4 = c / 64 ->
  Z.lor (Z.shiftl (Z.land v3 3) 6) (Z.land c 63) = c.
Proof.
  unfold is_byte. intros Hc Hv3 E3. bits_to_arith.
  rewrite E3. Z.div_mod_to_equations. lia.
Qed.

Lemma sextet_2_val (a b : Z) :
  is_byte a -> is_byte b ->
  Z.lor (Z.shiftl (Z.land a 3) 4) (Z.shiftr b 4) = a mod 4 * 16 + b / 16.
Proof. unfold is_byte. intros Ha Hb. bits_to_arith. reflexivity. Qed.

Lemma sextet_3_val (b c : Z) :
  is_byte b -> is_byte c ->
  Z.lor (Z.shiftl (Z.land b 15) 2) (Z.shiftr c 6) = b mod 16 * 4 + c / 64.
Proof. unfold is_byte. intros Hb Hc. bits_to_arith. reflexivity. Qed.

Lemma sextet_2_last_val (a : Z) :
  Z.shiftl (Z.land a 3) 4 = a mod 4 * 16.
Proof. bits_to_arith. reflexivity. Qed.

Lemma sextet_3_last_val (b : Z) :
  Z.shiftl (Z.land b 15) 2 = b mod 16 * 4.
Proof. bits_to_arith. reflexivity. Qed.

(** Induction over a byte sequence in groups of three. *)
Lemma group3_ind (P : list Z -> Prop) :
  P [] ->
  (forall a, P [a]) ->
  (forall a b, P [a; b]) ->
  (forall a b c rest, P rest -> P (a :: b :: c :: rest)) ->
  forall bytes, P bytes.
Proof.
  intros H0 H1 H2 H3.
  assert (H : forall bytes, P bytes /\ (forall a, P (a :: bytes))
                            /\ (forall a b, P (a :: b :: bytes))).
  { induction bytes as [| c rest (IH0 & IH1 & IH2)].
    - auto.
    - split; [apply IH1 |]. split; [intros a; apply IH2 |].
      intros a b. apply H3. exact IH0. }
  intros bytes. apply H.
Qed.

(** [atob] inverts [btoa] on byte sequences. *)
Lemma atob_base64 (bytes : list Z) :
  Forall is_byte bytes -> atob (base64 bytes) = Some bytes.
Proof.
  induction bytes as [| a | a b | a b c rest IH] using group3_ind;
    intros Hall.
  - reflexivity.
  - apply Forall_cons in Hall as [Ha _].
    cbn [base64 atob].
    rewrite (b64val_b64char _ (sextet_1 a Ha)),
            (b64val_b64char _ (sextet_2_last a Ha)).
    cbn [mbind option_bind Z.eqb andb Pos.eqb].
    rewrite unpack_1; [reflexivity | assumption | apply sextet_2_last, Ha |].
    rewrite sextet_2_last_val. unfold is_byte in Ha.
    Z.div_mod_to_equations. lia.
  - apply Forall_cons in Hall as [Ha Hall].
    apply Forall_cons in Hall as [Hb _].
    cbn [base64 atob].
    rewrite (b64val_b64char _ (sextet_1 a Ha)),
            (b64val_b64char _ (sextet_2 a b Ha Hb)).
    cbn [mbind option_bind].
    rewrite (b64char_not_pad _ (proj1 (sextet_3_last b Hb))).
    cbn [andb].
    rewrite (b64val_b64char _ (sextet_3_last b Hb)).
    cbn [mbind option_bind Z.eqb Pos.eqb].
    rewrite unpack_1, (unpack_2 b);
      [reflexivity | try assumption ..];
      try apply sextet_2; try apply sextet_3_last; try assumption;
      rewrite ?sextet_2_val, ?sextet_3_last_val by assumption;
      unfold is_byte in *; Z.div_mod_to_equations; lia.
  - apply Forall_cons in Hall as [Ha Hall].
    apply Forall_cons in Hall as [Hb Hall].
    apply Forall_cons in Hall as [Hc Hall].
    cbn [base64 atob].
    rewrite (b64val_b64char _ (sextet_1 a Ha)),
            (b64val_b64char _ (sextet_2 a b Ha Hb)).
    cbn [mbind option_bind].
    rewrite (b64char_not_pad _ (proj1 (sextet_3 b c Hb Hc))).
    cbn [andb].
    rewrite (b64val_b64char _ (sextet_3 b c Hb Hc)).
    cbn [mbind option_bind].
    rewrite (b64char_not_pad _ (proj1 (sextet_4 c Hc))).
    rewrite (b64val_b64char _ (sextet_4 c Hc)).
    cbn [mbind option_bind].
    rewrite (IH Hall). cbn [mbind option_bind].
    rewrite unpack_1, (unpack_2 b), unpack_3;
      [reflexivity | try assumption ..];
      try apply sextet_2; try apply sextet_3; try assumption;
      rewrite ?sextet_2_val, ?sextet_3_val by assumption;
      unfold is_byte in *; Z.div_mod_to_equations; lia.
Qed.

Lemma int16_bytes_are_bytes (ints : list Z) :
  Forall is_byte (flat_map int16_bytes ints).
Proof.
  induction ints as [| v rest IH]; [constructor |].
  cbn [flat_map int16_bytes app].
  repeat constructor; try assumption; unfold is_byte; rewrite land_255;
    apply Z.mod_pos_bound; lia.
Qed.

Lemma int16_of_int16_bytes (ints : list Z) :
  Forall (fun v => -32768 <= v < 32768) ints ->
  int16_of_bytes (flat_map int16_bytes ints) = Some ints.
Proof.
  induction 1 as [| v rest Hv _ IH]; [reflexivity |].
  cbn [flat_map int16_bytes app int16_of_bytes]. rewrite IH.
  cbn [mbind option_bind]. do 2 f_equal.
  rewrite !land_255, shiftr_8.
  destruct (Z.leb_spec 32768 (v mod 256 + 256 * ((v / 256) mod 256)));
    Z.div_mod_to_equations; lia.
Qed.

(** A sample of [-1, 1) is stored as the truncation of [q * 32768], within
    the 16-bit range and less than one step away from the sample. *)
Lemma frame_sample_close (q : Q) :
  (-1 <= q)%Q -> (q < 1)%Q ->
  let v := ToInt16 (fmul (Finite q) 32768) in
  -32768 <= v < 32768 /\ (Qabs ((v # 32768) - q) <= 1 # 32768)%Q.
Proof.
  intros Hlo Hhi. destruct q as [a d].
  unfold Qle, Qlt in Hlo, Hhi. cbn [Qnum Qden] in Hlo, Hhi.
  cbn [ToInt16 fmul]. change 32768%Q with (inject_Z 32768).
  rewrite truncate_scale.
  assert (Hd : 0 < Z.pos d) by lia.
  pose proof (Z.quot_rem' (a * 32768) (Z.pos d)) as E.
  assert (Hr : (0 <= a * 32768
                /\ 0 <= Z.rem (a * 32768) (Z.pos d) < Z.pos d)
               \/ (a * 32768 <= 0
                   /\ - Z.pos d < Z.rem (a * 32768) (Z.pos d) <= 0)).
  { destruct (Z.le_ge_cases 0 (a * 32768)) as [Hp | Hn].
    - left. split; [assumption |]. apply Z.rem_bound_pos; assumption.
    - right. split; [assumption |]. apply Z.rem_bound_pos_neg; assumption. }
  set (t := Z.quot (a * 32768) (Z.pos d)) in *.
  set (r := Z.rem (a * 32768) (Z.pos d)) in *.
  assert (Ht : -32768 <= t < 32768) by nia.
  rewrite wrap16_small by assumption.
  split; [assumption |].
  apply Qabs_Qle_condition.
  unfold Qle, Qminus, Qplus, Qopp. cbn [Qnum Qden].
  rewrite !Pos2Z.inj_mul. split; nia.
Qed.

(** Below full scale the round trip holds: for samples of [-1, 1),
    decoding what [createBlob] produced recovers every sample to within
    one quantization step. *)
Lemma createBlob_roundtrip_below_full_scale (samples : list Q) :
  Forall (fun q => (-1 <= q)%Q /\ (q < 1)%Q) samples ->
  exists (w : WireFrame) (decoded : list Q),
    createBlob (map Finite samples) = Some w
    /\ decodePCM16 (data w) = Some decoded
    /\ Forall2 (fun q x => (Qabs (x - q) <= 1 # 32768)%Q) samples decoded.
Proof.
  intros Hs. rewrite createBlob_total. eexists. eexists.
  split; [reflexivity |]. cbn [data]. unfold decodePCM16.
  rewrite atob_base64 by apply int16_bytes_are_bytes.
  cbn [mbind option_bind].
  rewrite int16_of_int16_bytes.
  - cbn [mbind option_bind]. split; [reflexivity |].
    induction Hs as [| q rest [Hlo Hhi] _ IH]; cbn [map]; constructor.
    + apply (frame_sample_close q Hlo Hhi).
    + exact IH.
  - induction Hs as [| q rest [Hlo Hhi] _ IH]; cbn [map]; constructor.
    + apply (frame_sample_close q Hlo Hhi).
    + exact IH.
Qed.

(** ** When re-formatting is stable *)

(** Induction following the scan of the replacements: a match consumes
    two characters, a miss one. *)
Lemma scan_ind (P : list Z -> Prop) :
  P [] ->
  (forall a, P [a]) ->
  (forall a b rest, P rest -> P (b :: rest) -> P (a :: b :: rest)) ->
  forall s, P s.
Proof.
  intros H0 H1 H2.
  assert (H : forall s, P s /\ forall a, P (a :: s)).
  { induction s as [| c rest [IH0 IH1]]; [auto |].
    split; [apply IH1 |]. intros a. apply H2; [exact IH0 | apply IH1]. }
  intros s. apply H.
Qed.

Lemma nopair_cons (bad : Z -> Z -> bool) (a b : Z) (s : list Z) :
  nopair bad (a :: b :: s) = true
  <-> bad a b = false /\ nopair bad (b :: s) = true.
Proof.
  cbn [nopair]. rewrite andb_true_iff, negb_true_iff. reflexivity.
Qed.

Lemma nopair_tail (bad : Z -> Z -> bool) (a : Z) (s : list Z) :
  nopair bad (a :: s) = true -> nopair bad s = true.
Proof.
  destruct s as [| b s]; [reflexivity |].
  intros H. apply nopair_cons in H. apply H.
Qed.

(** Putting [a] in front of a string whose first character, if any, is
    unrelated to it. *)
Lemma nopair_push (bad : Z -> Z -> bool) (a : Z) (s : list Z) :
  (forall b, head s = Some b -> bad a b = false) ->
  nopair bad s = true ->
  nopair bad (a :: s) = true.
Proof.
  destruct s as [| b s]; [reflexivity |].
  intros Hh Hs. apply nopair_cons. split; [apply Hh; reflexivity | exact Hs].
Qed.

Lemma nopair_impl (bad bad' : Z -> Z -> bool) (s : list Z) :
  (forall a b, bad' a b = true -> bad a b = true) ->
  nopair bad s = true -> nopair bad' s = true.
Proof.
  intros Himp. induction s as [| | a b rest _ IH] using scan_ind;
    [reflexivity | reflexivity |].
  intros H. apply nopair_cons in H as [Hab Hs].
  apply nopair_cons. split; [| apply IH; exact Hs].
  destruct (bad' a b) eqn:E; [| reflexivity].
  apply Himp in E. congruence.
Qed.

(** *** Inserting spaces *)

Lemma insertSpaces_step (p1 p2 : Z -> bool) (a b : Z) (rest : list Z) :
  insertSpaces p1 p2 (a :: b :: rest)
  = if p1 a && p2 b
    then a :: 32 :: b :: insertSpaces p1 p2 rest
    else a :: insertSpaces p1 p2 (b :: rest).
Proof. reflexivity. Qed.

Lemma insertSpaces_head (p1 p2 : Z -> bool) (s : list Z) :
  head (insertSpaces p1 p2 s) = head s.
Proof.
  destruct s as [| a [| b rest]]; try reflexivity.
  rewrite insertSpaces_step. destruct (p1 a && p2 b); reflexivity.
Qed.

(** Inserted spaces create no pair of a kind that never involves a
    space. *)
Lemma insertSpaces_keeps (bad : Z -> Z -> bool) (p1 p2 : Z -> bool)
    (s : list Z) :
  (forall a, bad a 32 = false) -> (forall b, bad 32 b = false) ->
  nopair bad s = true -> nopair bad (insertSpaces p1 p2 s) = true.
Proof.
  intros Hl Hr.
  induction s as [| | a b rest IH0 IH1] using scan_ind;
    [reflexivity | reflexivity |].
  intros H. apply nopair_cons in H as [Hab Hs].
  rewrite insertSpaces_step. destruct (p1 a && p2 b).
  - apply nopair_cons. split; [apply Hl |].
    apply nopair_cons. split; [apply Hr |].
    apply nopair_push.
    + intros c Hc. rewrite insertSpaces_head in Hc.
      destruct rest as [| c' rest']; [discriminate |].
      injection Hc as ->. apply nopair_cons in Hs. apply Hs.
    + apply IH0. apply (nopair_tail _ _ _ Hs).
  - apply nopair_push.
    + intros c Hc. rewrite insertSpaces_head in Hc.
      injection Hc as ->. exact Hab.
    + apply IH1. exact Hs.
Qed.

(** One pass separates every pair it looks for, provided no character
    that ends a pair also starts one. *)
Lemma insertSpaces_complete (p1 p2 : Z -> bool) (s : list Z) :
  p1 32 = false -> p2 32 = false ->
  nopair (fun a b => p1 a && p2 b && p1 b) s = true ->
  nopair (fun a b => p1 a && p2 b) (insertSpaces p1 p2 s) = true.
Proof.
  intros H1 H2.
  induction s as [| | a b rest IH0 IH1] using scan_ind;
    [reflexivity | reflexivity |].
  intros H. apply nopair_cons in H as [Hab Hs].
  rewrite insertSpaces_step. destruct (p1 a && p2 b) eqn:E.
  - cbn [andb] in Hab.
    apply nopair_cons. split; [rewrite H2; apply andb_false_r |].
    apply nopair_cons. split; [rewrite H1; reflexivity |].
    apply nopair_push.
    + intros c _. rewrite Hab. reflexivity.
    + apply IH0. apply (nopair_tail _ _ _ Hs).
  - apply nopair_push.
    + intros c Hc. rewrite insertSpaces_head in Hc.
      injection Hc as ->. exact E.
    + apply IH1. exact Hs.
Qed.

Lemma insertSpaces_id (p1 p2 : Z -> bool) (s : list Z) :
  nopair (fun a b => p1 a && p2 b) s = true -> insertSpaces p1 p2 s = s.
Proof.
  induction s as [| | a b rest IH0 IH1] using scan_ind;
    [reflexivity | reflexivity |].
  intros H. apply nopair_cons in H as [Hab Hs].
  rewrite insertSpaces_step, Hab. f_equal. apply IH1. exact Hs.
Qed.

(** *** Replacing escaped newlines *)

Lemma replaceEscapedNewlines_step (a b : Z) (rest : list Z) :
  replaceEscapedNewlines (a :: b :: rest)
  = if (a =? 92) && (b =? 110)
    then 10 :: replaceEscapedNewlines rest
    else a :: replaceEscapedNewlines (b :: rest).
Proof. reflexivity. Qed.

Lemma replaceEscapedNewlines_head (a : Z) (s : list Z) :
  head (replaceEscapedNewlines (a :: s)) = Some a
  \/ head (replaceEscapedNewlines (a :: s)) = Some 10.
Proof.
  destruct s as [| b rest]; [left; reflexivity |].
  rewrite replaceEscapedNewlines_step.
  destruct ((a =? 92) && (b =? 110)); [right | left]; reflexivity.
Qed.

Lemma replaceEscapedNewlines_keeps (bad : Z -> Z -> bool) (s : list Z) :
  (forall a, bad a 10 = false) -> (forall b, bad 10 b = false) ->
  nopair bad s = true -> nopair bad (replaceEscapedNewlines s) = true.
Proof.
  intros Hl Hr.
  induction s as [| | a b rest IH0 IH1] using scan_ind;
    [reflexivity | reflexivity |].
  intros H. apply nopair_cons in H as [Hab Hs].
  rewrite replaceEscapedNewlines_step. destruct ((a =? 92) && (b =? 110)).
  - apply nopair_push; [intros c _; apply Hr |].
    apply IH0. apply (nopair_tail _ _ _ Hs).
  - apply nopair_push; [| apply IH1; exact Hs].
    intros c Hc.
    destruct (replaceEscapedNewlines_head b rest) as [Hh | Hh];
      rewrite Hh in Hc; injection Hc as <-; [exact Hab | apply Hl].
Qed.

Lemma replaceEscapedNewlines_complete (s : list Z) :
  nopair escapedNewline (replaceEscapedNewlines s) = true.
Proof.
  induction s as [| | a b rest IH0 IH1] using scan_ind;
    [reflexivity | reflexivity |].
  rewrite replaceEscapedNewlines_step.
  destruct ((a =? 92) && (b =? 110)) eqn:E.
  - apply nopair_push; [intros c _; reflexivity | exact IH0].
  - apply nopair_push; [| exact IH1].
    intros c Hc.
    destruct (replaceEscapedNewlines_head b rest) as [Hh | Hh];
      rewrite Hh in Hc; injection Hc as <-; [exact E |].
    unfold escapedNewline. apply andb_false_r.
Qed.

Lemma replaceEscapedNewlines_id (s : list Z) :
  nopair escapedNewline s = true -> replaceEscapedNewlines s = s.
Proof.
  induction s as [| | a b rest IH0 IH1] using scan_ind;
    [reflexivity | reflexivity |].
  intros H. apply nopair_cons in H as [Hab Hs].
  rewrite replaceEscapedNewlines_step. unfold escapedNewline in Hab.
  rewrite Hab. f_equal. apply IH1. exact Hs.
Qed.

(** *** The whole display form *)

(** Every pair the replacements look for is gone after one pass, if no
    two punctuation marks are adjacent in the buffer. *)
Lemma formattedText_clean (buffer : list Z) :
  nopair punctPunct buffer = true ->
  let s := formattedText buffer in
  nopair escapedNewline s = true
  /\ nopair camelCase s = true
  /\ nopair unspacedPunct s = true
  /\ nopair letterDigit s = true.
Proof.
  intros Hpp. unfold formattedText.
  set (s1 := replaceEscapedNewlines buffer).
  set (s2 := insertSpaces isLower isUpper s1).
  set (s3 := insertSpaces isPunct isNonSpace s2).
  set (s4 := insertSpaces isLetter isDigit s3).
  (* after the newline replacement *)
  assert (N1 : nopair escapedNewline s1 = true)
    by apply replaceEscapedNewlines_complete.
  assert (P1 : nopair punctPunct s1 = true).
  { apply replaceEscapedNewlines_keeps; [| reflexivity | exact Hpp].
    intros a. apply andb_false_r. }
  (* after the camel-case split *)
  assert (N2 : nopair escapedNewline s2 = true).
  { apply insertSpaces_keeps; [| reflexivity | exact N1].
    intros a. apply andb_false_r. }
  assert (P2 : nopair punctPunct s2 = true).
  { apply insertSpaces_keeps; [| reflexivity | exact P1].
    intros a. apply andb_false_r. }
  assert (C2 : nopair camelCase s2 = true).
  { apply insertSpaces_complete; [reflexivity | reflexivity |].
    apply (nopair_impl (fun _ _ => false)); [| clear; induction s1 using scan_ind; auto].
    intros a b H. apply andb_true_iff in H as [H Hb].
    apply andb_true_iff in H as [_ Hu].
    unfold isLower, isUpper in *.
    apply andb_true_iff in Hb as [Hb1 Hb2].
    apply andb_true_iff in Hu as [Hu1 Hu2].
    apply Z.leb_le in Hb1, Hb2, Hu1, Hu2. lia. }
  (* after the punctuation spacing *)
  assert (N3 : nopair escapedNewline s3 = true).
  { apply insertSpaces_keeps; [| reflexivity | exact N2].
    intros a. apply andb_false_r. }
  assert (C3 : nopair camelCase s3 = true).
  { apply insertSpaces_keeps; [| reflexivity | exact C2].
    intros a. apply andb_false_r. }
  assert (U3 : nopair unspacedPunct s3 = true).
  { apply insertSpaces_complete; [reflexivity | reflexivity |].
    apply (nopair_impl punctPunct); [| exact P2].
    intros a b H. apply andb_true_iff in H as [H Hb].
    apply andb_true_iff in H as [Ha _].
    unfold punctPunct. rewrite Ha, Hb. reflexivity. }
  (* after the letter-digit spacing *)
  assert (N4 : nopair escapedNewline s4 = true).
  { apply insertSpaces_keeps; [| reflexivity | exact N3].
    intros a. apply andb_false_r. }
  assert (C4 : nopair camelCase s4 = true).
  { apply insertSpaces_keeps; [| reflexivity | exact C3].
    intros a. apply andb_false_r. }
  assert (U4 : nopair unspacedPunct s4 = true).
  { apply insertSpaces_keeps; [| reflexivity | exact U3].
    intros a. apply andb_false_r. }
  assert (D4 : nopair letterDigit s4 = true).
  { apply insertSpaces_complete; [reflexivity | reflexivity |].
    apply (nopair_impl (fun _ _ => false)); [| clear; induction s3 using scan_ind; auto].
    intros a b H. apply andb_true_iff in H as [H Hb].
    apply andb_true_iff in H as [_ Hd].
    unfold isLetter, isLower, isUpper, isDigit in *.
    apply andb_true_iff in Hd as [Hd1 Hd2].
    apply Z.leb_le in Hd1, Hd2.
    apply orb_true_iff in Hb as [Hb | Hb];
      apply andb_true_iff in Hb as [Hb1 Hb2];
      apply Z.leb_le in Hb1, Hb2; lia. }
  auto.
Qed.

(** A string without any such pair is left alone. *)
Lemma formattedText_id (s : list Z) :
  nopair escapedNewline s = true ->
  nopair camelCase s = true ->
  nopair unspacedPunct s = true ->
  nopair letterDigit s = true ->
  formattedText s = s.
Proof.
  intros N C U D. unfold formattedText.
  rewrite (replaceEscapedNewlines_id s N).
  rewrite (insertSpaces_id isLower isUpper s C).
  rewrite (insertSpaces_id isPunct isNonSpace s U).
  apply (insertSpaces_id isLetter isDigit s D).
Qed.

(** Away from adjacent punctuation the display form is stable: when no
    two of the marks [. ? ! ,] are adjacent in the buffer, formatting
    twice is formatting once. *)
Lemma formattedText_stable (buffer : list Z) :
  nopair punctPunct buffer = true ->
  formattedText (formattedText buffer) = formattedText buffer.
Proof.
  intros Hpp.
  destruct (formattedText_clean buffer Hpp) as (N & C & U & D).
  apply formattedText_id; assumption.
Qed.

(** C2 at an ellipsis: one pass leaves the second full stop unspaced
    (the match for the first consumed it), a second pass spaces it; the
    stored buffer therefore changes again when the next fragment makes
    [onmessage] format it once more. *)
Theorem formattedText_ellipsis :
  formattedText (str "...") = str ". .."
  /\ formattedText (formattedText (str "...")) = str ". . ."
  /\ formattedText (formattedText (str "...")) <> formattedText (str "...")
  /\ bufferRef (run asciiToUpperCase active
                  [OnMessage 1000 (textMessage (str "..."))])
     = str ". .."
  /\ bufferRef (run asciiToUpperCase active
                  [OnMessage 1000 (textMessage (str "..."));
                   OnMessage 1100 (textMessage (str " ok"))])
     = str ". . . ok".
Proof.
  split; [| split; [| split; [| split]]]; try (vm_compute; reflexivity).
  vm_compute. discriminate.
Qed.

(** ** The session callbacks *)

(** Unfolding of the state monad and of the primitive actions. *)
Ltac hook_unfold :=
  cbv [exec mbind M_bind mret M_ret get modify when
       setStatus setError setIsSessionActive setIsPaused
       onTranscriptUpdate stopTracks sendRealtimeInput closeSession
       cleanUpSession stopAudio then_ react render
       pauseSession resumeSession onopen onclose onerror onaudioprocess
       startSession startSession_granted startSession_denied stopSession].

Ltac hook_cbn :=
  cbn -[createWavBlob createBlob trim concat formattedText split_lines str].

Ltac hook_simpl := hook_unfold; hook_cbn.

(** Case analysis on the flags and on the promise a callback tests. *)
Ltac hook_cases :=
  repeat match goal with
    | |- context [if ?b then _ else _] => is_var b; destruct b; hook_cbn
    | |- context [negb ?b] => is_var b; destruct b; hook_cbn
    | |- context [andb ?b _] => is_var b; destruct b; hook_cbn
    | |- context [match ?p with NoPromise => _ | _ => _ end] =>
        is_var p; destruct p; hook_cbn
    end.

(** [cleanUpSession] empties the transcript buffer and the archive. *)
Lemma cleanUpSession_clears (w : Hook) :
  bufferRef (exec cleanUpSession w) = []
  /\ capturedAudioChunksRef (exec cleanUpSession w) = []
  /\ lastMessageTimeRef (exec cleanUpSession w) = None
  /\ isSessionActive (exec cleanUpSession w) = false
  /\ isSessionActiveForCallback (exec cleanUpSession w)
     = isSessionActiveForCallback w.
Proof.
  destruct w. hook_simpl. hook_cases; repeat split; reflexivity.
Qed.

(** Whatever [stopSession] finds in an emptied hook, it returns nothing. *)
Lemma stopSession_empty (w : Hook) :
  bufferRef w = [] -> capturedAudioChunksRef w = [] ->
  fst (stopSession w) = Return {| transcript := []; audioBlob := None |}.
Proof.
  destruct w. cbn. intros -> ->. hook_simpl. hook_cases; reflexivity.
Qed.

(** The effects mirror the state cells and touch nothing else. *)
Lemma render_keeps_buffers (w : Hook) :
  bufferRef (exec render w) = bufferRef w
  /\ capturedAudioChunksRef (exec render w) = capturedAudioChunksRef w.
Proof. split; reflexivity. Qed.

(** C9: [stopSession] on a hook that is not active returns the empty
    transcript and no container, and leaves the whole hook state (status,
    error, per-session refs, environment) as it was. *)
Theorem stopSession_idle (w : Hook) :
  isSessionActiveForCallback w = false ->
  stopSession w = (Return {| transcript := []; audioBlob := None |}, w).
Proof.
  intros Hidle. hook_unfold. rewrite Hidle. reflexivity.
Qed.

Lemma stopSession_idle_witness :
  stopSession initial
  = (Return {| transcript := []; audioBlob := None |}, initial).
Proof. apply (stopSession_idle initial). reflexivity. Defined.

(** C8, as the code has it: [startSession] returns at once, without any
    change to the hook or its environment, when the session is active
    (open channel, paused or not). *)
Theorem startSession_rejected_when_active
    (apiKey : option (list Z)) (w : Hook) :
  isSessionActiveForCallback w = true ->
  startSession apiKey w = (false, w).
Proof.
  intros Hact. hook_unfold. rewrite Hact. reflexivity.
Qed.

Lemma startSession_rejected_when_active_witness :
  startSession (Some (str "key")) active = (false, active).
Proof.
  apply (startSession_rejected_when_active (Some (str "key")) active).
  reflexivity.
Defined.

(** C8, as the spec states it, fails while connecting: a second
    [startSession] is not rejected; it asks for the device again and,
    once granted, opens a second channel. *)
Lemma startSession_while_connecting :
  isSessionActive connecting = false
  /\ sessionPromise connecting = Pending []
  /\ fst (startSession (Some (str "key")) connecting) = true
  /\ mediaRequests (exec (startSession (Some (str "key"))) connecting)
     = S (mediaRequests connecting)
  /\ connects (exec startSession_granted
                 (exec (startSession (Some (str "key"))) connecting))
     = S (connects connecting)
  /\ exec (startSession (Some (str "key"))) connecting <> connecting.
Proof.
  split; [| split; [| split; [| split; [| split]]]];
    [vm_compute; reflexivity .. |].
  intros H. apply (f_equal mediaRequests) in H. vm_compute in H.
  discriminate.
Qed.

(** C1, as the code has it: once the channel has closed or failed, the
    transcript and the archive are gone; [stopSession] returns the empty
    transcript and no container, before and after the next render. *)
Theorem stopSession_after_termination (reason : list Z) (w : Hook) :
  isSessionActiveForCallback w = true ->
  let empty := Return {| transcript := []; audioBlob := None |} in
  fst (stopSession (exec (onclose reason) w)) = empty
  /\ fst (stopSession (exec render (exec (onclose reason) w))) = empty
  /\ fst (stopSession (exec (onerror reason) w)) = empty
  /\ fst (stopSession (exec render (exec (onerror reason) w))) = empty.
Proof.
  intros Hact empty.
  assert (Hclose : exec (onclose reason) w
                   = exec cleanUpSession
                       (set_status (str "Connection closed: " ++ reason) w)).
  { hook_unfold. rewrite Hact. reflexivity. }
  assert (Herror : exec (onerror reason) w
                   = exec cleanUpSession
                       (set_error (str "Error: " ++ reason) w)).
  { reflexivity. }
  rewrite Hclose, Herror.
  pose proof (cleanUpSession_clears
                (set_status (str "Connection closed: " ++ reason) w))
    as (Hb1 & Hc1 & _).
  pose proof (cleanUpSession_clears (set_error (str "Error: " ++ reason) w))
    as (Hb2 & Hc2 & _).
  split; [| split; [| split]]; apply stopSession_empty;
    rewrite ?(proj1 (render_keeps_buffers _)),
            ?(proj2 (render_keeps_buffers _)); assumption.
Qed.

Lemma stopSession_after_termination_witness :
  let empty := Return {| transcript := []; audioBlob := None |} in
  fst (stopSession (exec (onclose (str "going away")) dictating)) = empty
  /\ fst (stopSession
            (exec render (exec (onclose (str "going away")) dictating)))
     = empty
  /\ fst (stopSession (exec (onerror (str "going away")) dictating)) = empty
  /\ fst (stopSession
            (exec render (exec (onerror (str "going away")) dictating)))
     = empty.
Proof.
  apply (stopSession_after_termination (str "going away") dictating).
  reflexivity.
Defined.

(** C1, as the spec states it, fails: a session that has received the
    fragment [hello] and one audio frame loses both when the channel
    fails or closes; the following [stopSession] returns nothing, while
    without the failure it returns the transcript and a container. *)
Lemma termination_discards_partial_results :
  isSessionActiveForCallback dictating = true
  /\ bufferRef dictating = str "hello"
  /\ capturedAudioChunksRef dictating = [[Finite (1 # 2); Finite (-1 # 4)]]
  /\ (exists blob : Blob,
        fst (stopSession dictating)
        = Return {| transcript := str "hello"; audioBlob := Some blob |})
  /\ fst (stopSession (exec (onerror (str "socket lost")) dictating))
     = Return {| transcript := []; audioBlob := None |}
  /\ fst (stopSession (exec (onclose (str "socket lost")) dictating))
     = Return {| transcript := []; audioBlob := None |}.
Proof.
  split; [| split; [| split; [| split; [| split]]]];
    try (vm_compute; reflexivity).
  eexists. vm_compute. reflexivity.
Qed.

(** ** The pause heuristic *)

Lemma truthy_string_true (s : list Z) : s <> [] -> truthy_string s = true.
Proof. destruct s; [congruence | reflexivity]. Qed.

Lemma length_pos_nonempty (s : list Z) :
  (0 <? length s)%nat = true <-> s <> [].
Proof.
  destruct s; cbn; split; intros H; congruence || reflexivity.
Qed.

(** [onmessage] stamps every message, with or without text. *)
Lemma onmessage_stamps (toUpperCase : list Z -> list Z)
    (now : Z) (message : LiveServerMessage) (w : Hook) :
  lastMessageTimeRef (exec (onmessage toUpperCase now message) w)
  = Some now.
Proof.
  unfold onmessage. hook_unfold.
  destruct (modelTurnParts message) as [ps |]; [| reflexivity].
  destruct (truthy_string (responseTextOf ps)); reflexivity.
Qed.

(** The effect of a message that carries text. *)
Lemma onmessage_text (toUpperCase : list Z -> list Z)
    (now : Z) (message : LiveServerMessage) (ps : list Part) (w : Hook) :
  modelTurnParts message = Some ps ->
  responseTextOf ps <> [] ->
  let gap :=
    if truthy_number (lastMessageTimeRef w)
    then now - default 0 (lastMessageTimeRef w) else 0 in
  let buffer :=
    formattedText
      (bufferRef w
       ++ separatorFor gap (bufferRef w) (responseTextOf ps)
       ++ responseTextOf ps) in
  exec (onmessage toUpperCase now message) w
  = set_transcriptUpdates
      (transcriptUpdates w
       ++ [map (capitalizeLine toUpperCase) (split_lines buffer)])
      (set_bufferRef buffer (set_lastMessageTimeRef (Some now) w)).
Proof.
  intros Hps Htext gap buffer. unfold onmessage. hook_unfold.
  rewrite Hps, (truthy_string_true _ Htext). reflexivity.
Qed.

(** The two examples of the spec, for a session whose first fragment
    arrives at any non-zero clock value [t]. *)
Lemma hello_world_examples (toUpperCase : list Z -> list Z) (t : Z) :
  t <> 0 ->
  bufferRef (run toUpperCase active
               [OnMessage t (textMessage (str "hello"));
                OnMessage (t + 500) (textMessage (str "world"))])
  = str "hello world"
  /\ bufferRef (run toUpperCase active
                  [OnMessage t (textMessage (str "hello"));
                   OnMessage (t + 50) (textMessage (str "world"))])
     = str "helloworld".
Proof.
  intros Ht. cbn [run foldl step].
  assert (Hfirst :
    forall w, bufferRef w = [] -> lastMessageTimeRef w = None ->
      bufferRef (exec (onmessage toUpperCase t (textMessage (str "hello"))) w)
      = str "hello"
      /\ lastMessageTimeRef
           (exec (onmessage toUpperCase t (textMessage (str "hello"))) w)
         = Some t).
  { intros w Hb Hl. split; [| apply onmessage_stamps].
    rewrite (onmessage_text toUpperCase t (textMessage (str "hello"))
               [{| text := Some (str "hello") |}] w eq_refl)
      by discriminate.
    cbn [bufferRef set_transcriptUpdates set_bufferRef].
    rewrite Hb, Hl. reflexivity. }
  destruct (Hfirst active eq_refl eq_refl) as [Hb Hl].
  assert (Hne : (t =? 0) = false) by (apply Z.eqb_neq; assumption).
  split.
  - rewrite (onmessage_text toUpperCase (t + 500)
               (textMessage (str "world"))
               [{| text := Some (str "world") |}] _ eq_refl)
      by discriminate.
    cbn [bufferRef set_transcriptUpdates set_bufferRef].
    rewrite Hb, Hl. cbn [truthy_number default from_option id].
    rewrite Hne. cbn [negb].
    replace (t + 500 - t) with 500 by lia. reflexivity.
  - rewrite (onmessage_text toUpperCase (t + 50)
               (textMessage (str "world"))
               [{| text := Some (str "world") |}] _ eq_refl)
      by discriminate.
    cbn [bufferRef set_transcriptUpdates set_bufferRef].
    rewrite Hb, Hl. cbn [truthy_number default from_option id].
    rewrite Hne. cbn [negb].
    replace (t + 50 - t) with 50 by lia. reflexivity.
Qed.

(** C6, as the code has it: the separator is one space exactly when the
    time since the last message of any kind (zero when none is recorded)
    exceeds 300 ms, the buffer is non-empty and does not end in
    whitespace, and the fragment does not start with whitespace; the
    (possibly prefixed) fragment is appended and the buffer
    re-formatted; every message, with or without text, records its
    arrival time.  In particular [hello] and [world] arriving 500 ms
    apart, with no message in between, give [hello world], and 50 ms
    apart [helloworld]. *)
Theorem onmessage_separator (toUpperCase : list Z -> list Z)
    (now : Z) (message : LiveServerMessage) (ps : list Part) (w : Hook) :
  modelTurnParts message = Some ps ->
  responseTextOf ps <> [] ->
  let fragment := responseTextOf ps in
  let gap :=
    if truthy_number (lastMessageTimeRef w)
    then now - default 0 (lastMessageTimeRef w) else 0 in
  exists separator : list Z,
    bufferRef (exec (onmessage toUpperCase now message) w)
    = formattedText (bufferRef w ++ separator ++ fragment)
    /\ (separator = str " " \/ separator = [])
    /\ (separator = str " "
        <-> 300 < gap
            /\ bufferRef w <> []
            /\ endsWithSpace (bufferRef w) = false
            /\ startsWithSpace fragment = false)
    /\ (lastMessageTimeRef w = None -> separator = [])
    /\ (forall (now' : Z) (message' : LiveServerMessage) (w0 : Hook),
          lastMessageTimeRef (exec (onmessage toUpperCase now' message') w0)
          = Some now')
    /\ (forall t : Z,
          t <> 0 ->
          bufferRef (run toUpperCase active
                       [OnMessage t (textMessage (str "hello"));
                        OnMessage (t + 500) (textMessage (str "world"))])
          = str "hello world"
          /\ bufferRef (run toUpperCase active
                          [OnMessage t (textMessage (str "hello"));
                           OnMessage (t + 50) (textMessage (str "world"))])
             = str "helloworld").
Proof.
  intros Hps Htext fragment gap.
  exists (separatorFor gap (bufferRef w) fragment).
  split; [| split; [| split; [| split; [| split]]]].
  - rewrite (onmessage_text toUpperCase now message ps w Hps Htext).
    reflexivity.
  - unfold separatorFor.
    destruct (_ && _); [left | right]; reflexivity.
  - unfold separatorFor.
    destruct (Z.ltb_spec 300 gap) as [Hg | Hg];
      destruct (length_pos_nonempty (bufferRef w)) as [Hn1 Hn2];
      destruct (0 <? length (bufferRef w))%nat eqn:Hlen;
      destruct (endsWithSpace (bufferRef w)) eqn:He;
      destruct (startsWithSpace fragment) eqn:Hs; cbn;
      split; try reflexivity; try discriminate;
      try (intros (? & ? & ? & ?); try lia; try discriminate);
      try (intros _; repeat split; try lia; auto; fail).
    all: match goal with
         | Hx : ?b <> [] -> false = true, Hy : ?b <> [] |- _ =>
             specialize (Hx Hy); discriminate
         end.
  - intros Hnone. unfold separatorFor, gap. rewrite Hnone. reflexivity.
  - intros now' message' w0. apply onmessage_stamps.
  - intros t Ht. apply hello_world_examples. exact Ht.
Qed.

Lemma onmessage_separator_witness :
  exists separator : list Z,
    bufferRef (exec (onmessage asciiToUpperCase 1500
                       (textMessage (str "world"))) dictating)
    = formattedText (bufferRef dictating ++ separator ++ str "world")
    /\ (separator = str " " \/ separator = [])
    /\ (separator = str " "
        <-> 300 < 1500 - 1000
            /\ bufferRef dictating <> []
            /\ endsWithSpace (bufferRef dictating) = false
            /\ startsWithSpace (str "world") = false)
    /\ (lastMessageTimeRef dictating = None -> separator = [])
    /\ (forall (now' : Z) (message' : LiveServerMessage) (w0 : Hook),
          lastMessageTimeRef
            (exec (onmessage asciiToUpperCase now' message') w0)
          = Some now')
    /\ (forall t : Z,
          t <> 0 ->
          bufferRef (run asciiToUpperCase active
                       [OnMessage t (textMessage (str "hello"));
                        OnMessage (t + 500) (textMessage (str "world"))])
          = str "hello world"
          /\ bufferRef (run asciiToUpperCase active
                          [OnMessage t (textMessage (str "hello"));
                           OnMessage (t + 50) (textMessage (str "world"))])
             = str "helloworld").
Proof.
  apply (onmessage_separator asciiToUpperCase 1500
           (textMessage (str "world")) [{| text := Some (str "world") |}]
           dictating).
  - reflexivity.
  - discriminate.
Defined.

(** C6, as the spec states it, fails when a message without text comes
    between two fragments: [hello] at 1000 and [world] at 1500 are half a
    second apart, none carries whitespace, and yet no space is inserted,
    because the notice at 1400 restarted the clock. *)
Lemma separator_counts_every_message :
  bufferRef dictating = str "hello"
  /\ lastMessageTimeRef dictating = Some 1000
  /\ bufferRef (run asciiToUpperCase dictating
                  [OnMessage 1400 emptyMessage;
                   OnMessage 1500 (textMessage (str "world"))])
     = str "helloworld"
  /\ bufferRef (run asciiToUpperCase dictating
                  [OnMessage 1500 (textMessage (str "world"))])
     = str "hello world".
Proof. repeat split; vm_compute; reflexivity. Qed.

(** ** Archiving and sending *)

(** What [stopSession] returns while the session is active. *)
Lemma stopSession_active (w : Hook) :
  isSessionActiveForCallback w = true ->
  fst (stopSession w)
  = Return
      {| transcript := trim (bufferRef w);
         audioBlob :=
           match capturedAudioChunksRef w with
           | [] => None
           | _ :: _ =>
               let concatenated := concat (capturedAudioChunksRef w) in
               Some {| blobBytes :=
                         wavHeader (length concatenated) SAMPLE_RATE
                         ++ wavPayload concatenated;
                       blobType := str "audio/wav" |}
           end |}.
Proof.
  destruct w. cbn [isSessionActiveForCallback capturedAudioChunksRef bufferRef].
  intros ->. hook_simpl.
  match goal with |- context [length ?c] => destruct c as [| chunk chunks] end;
    hook_cbn.
  - hook_cases; reflexivity.
  - rewrite createWavBlob_layout. hook_cbn. hook_cases; reflexivity.
Qed.

(** C7: every captured frame is appended to the archive, whatever the
    state; a frame is passed to the channel only when the connection is
    established and the session is active and not paused.  For frames
    [f1 .. f5] with a pause that has taken effect before [f3], the
    archive and the container returned by [stopSession] hold [f1 .. f5]
    in order, and the channel has been given nothing beyond [f1], [f2]. *)
Theorem pause_preserves_archive (toUpperCase : list Z -> list Z)
    (f1 f2 f3 f4 f5 : list float) (w : Hook) :
  isSessionActive w = true ->
  isSessionActiveForCallback w = true ->
  let w' :=
    run toUpperCase w
      [OnAudioProcess f1; OnAudioProcess f2; PauseSession; Render;
       OnAudioProcess f3; OnAudioProcess f4; OnAudioProcess f5] in
  let archive := capturedAudioChunksRef w ++ [f1; f2; f3; f4; f5] in
  (forall (pcmData : list float) (w0 : Hook),
     capturedAudioChunksRef (exec (onaudioprocess pcmData) w0)
     = capturedAudioChunksRef w0 ++ [pcmData]
     /\ sentFrames (exec (onaudioprocess pcmData) w0)
        = sentFrames w0
          ++ match sessionPromise w0 with
             | Fulfilled =>
                 if isSessionActiveForCallback w0
                    && negb (isPausedForCallback w0)
                 then omap createBlob [pcmData] else []
             | _ => []
             end)
  /\ capturedAudioChunksRef w' = archive
  /\ (sentFrames w' = sentFrames w
      \/ sentFrames w' = sentFrames w ++ omap createBlob [f1; f2])
  /\ (sessionPromise w = Fulfilled -> isPausedForCallback w = false ->
      sentFrames w' = sentFrames w ++ omap createBlob [f1; f2])
  /\ fst (stopSession w')
     = Return
         {| transcript := trim (bufferRef w);
            audioBlob :=
              Some {| blobBytes :=
                        wavHeader (length (concat archive)) SAMPLE_RATE
                        ++ wavPayload (concat archive);
                      blobType := str "audio/wav" |} |}.
Proof.
  intros Hstate Href w' archive.
  assert (Hw' : capturedAudioChunksRef w' = archive
                /\ bufferRef w' = bufferRef w
                /\ isSessionActiveForCallback w' = true
                /\ (sentFrames w' = sentFrames w
                    \/ sentFrames w' = sentFrames w ++ omap createBlob [f1; f2])
                /\ (sessionPromise w = Fulfilled ->
                    isPausedForCallback w = false ->
                    sentFrames w' = sentFrames w ++ omap createBlob [f1; f2])).
  { subst w' archive. destruct w.
    cbn [isSessionActive isSessionActiveForCallback] in Hstate, Href.
    subst. cbn [run foldl step].
    hook_simpl. rewrite ?createBlob_total. hook_cbn.
    hook_cases; rewrite ?createBlob_total; hook_cbn;
      rewrite <- ?app_assoc; cbn [app];
      (split; [reflexivity | split; [reflexivity | split; [reflexivity |]]]);
      rewrite ?app_nil_r;
      (split; [auto | intros; try discriminate; auto]). }
  destruct Hw' as (Harch & Hbuf & Hact & Hsent & Hsent').
  split; [| split; [| split; [| split]]]; try assumption.
  - intros pcmData w0. destruct w0. hook_simpl.
    rewrite ?createBlob_total. hook_cbn.
    hook_cases; rewrite ?createBlob_total, ?app_nil_r; split; reflexivity.
  - rewrite (stopSession_active w' Hact), Harch, Hbuf.
    subst archive. destruct (capturedAudioChunksRef w); reflexivity.
Qed.

Lemma pause_preserves_archive_witness :
  let f1 := [Finite (1 # 2)] in
  let f2 := [Finite (-1 # 4)] in
  let f3 := [Finite 0] in
  let f4 := [Finite (1 # 8)] in
  let f5 := [Finite (-1)] in
  let w' :=
    run asciiToUpperCase active
      [OnAudioProcess f1; OnAudioProcess f2; PauseSession; Render;
       OnAudioProcess f3; OnAudioProcess f4; OnAudioProcess f5] in
  capturedAudioChunksRef w' = [f1; f2; f3; f4; f5]
  /\ sentFrames w' = omap createBlob [f1; f2].
Proof.
  intros f1 f2 f3 f4 f5 w'.
  destruct (pause_preserves_archive asciiToUpperCase f1 f2 f3 f4 f5 active
              eq_refl eq_refl) as (_ & Harchive & _ & Hsent & _).
  split; [exact Harchive | exact (Hsent eq_refl eq_refl)].
Defined.

(** ** The final transcript *)








(** * Further properties of the code *)

(** ** The frame encoder and the container *)

Lemma base64_length (bytes : list Z) :
  length (base64 bytes) = (4 * ((length bytes + 2) / 3))%nat.
Proof.
  induction bytes as [| a | a b | a b c rest IH] using group3_ind;
    try reflexivity.
  cbn [base64 length]. rewrite IH.
  replace (S (S (S (length rest))) + 2)%nat
    with ((length rest + 2) + 1 * 3)%nat by lia.
  rewrite Nat.div_add by lia. lia.
Qed.

Lemma int16_bytes_length (ints : list Z) :
  length (flat_map int16_bytes ints) = (2 * length ints)%nat.
Proof.
  induction ints as [| v rest IH]; [reflexivity |].
  cbn [flat_map int16_bytes app length]. rewrite IH. lia.
Qed.

(** X1: [createBlob] never throws, whatever the samples (NaN, infinities
    and out-of-range values included): the bytes it hands to [btoa] come
    out of a [Uint8Array].  The frame it returns is tagged
    [audio/pcm;rate=16000] and carries [4 * ceil(2n / 3)] base64
    characters for [n] samples. *)
Theorem createBlob_never_throws (pcmData : list float) :
  exists w : WireFrame,
    createBlob pcmData = Some w
    /\ mimeType w = str "audio/pcm;rate=16000"
    /\ length (data w) = (4 * ((2 * length pcmData + 2) / 3))%nat.
Proof.
  rewrite createBlob_total. eexists. split; [reflexivity |].
  split; [reflexivity |]. cbn [data].
  rewrite base64_length, int16_bytes_length, length_map. reflexivity.
Qed.

Lemma ToInt16_range (x : float) : -32768 <= ToInt16 x < 32768.
Proof.
  destruct x as [q | | s]; cbn [ToInt16]; try lia.
  cbv zeta. pose proof (Z.mod_pos_bound (truncate q) 65536 ltac:(lia)).
  destruct (Z.leb_spec 32768 (truncate q mod 65536)); lia.
Qed.

(** X2: the wire frame determines the quantized samples: two sample
    blocks are encoded to the same frame only if they have the same
    16-bit values, sample by sample (the base64 text loses nothing). *)
Theorem createBlob_injective (pcm1 pcm2 : list float) :
  createBlob pcm1 = createBlob pcm2 ->
  map (fun x => ToInt16 (fmul x 32768)) pcm1
  = map (fun x => ToInt16 (fmul x 32768)) pcm2.
Proof.
  rewrite !createBlob_total. intros H.
  injection H as H.
  set (i1 := map _ pcm1) in *. set (i2 := map _ pcm2) in *.
  assert (R : forall pcm,
             Forall (fun v => -32768 <= v < 32768)
                    (map (fun x => ToInt16 (fmul x 32768)) pcm)).
  { intros pcm. apply Forall_map, Forall_forall. intros x _.
    apply ToInt16_range. }
  apply (f_equal atob) in H.
  rewrite !atob_base64 in H by apply int16_bytes_are_bytes.
  injection H as H. apply (f_equal int16_of_bytes) in H.
  rewrite !int16_of_int16_bytes in H by apply R.
  injection H as H. exact H.
Qed.

Lemma createBlob_injective_witness :
  map (fun x => ToInt16 (fmul x 32768)) [Finite (1 # 2); Finite 1]
  = map (fun x => ToInt16 (fmul x 32768)) [Finite (32769 # 65536); Finite (-1)].
Proof.
  apply (createBlob_injective [Finite (1 # 2); Finite 1]
           [Finite (32769 # 65536); Finite (-1)]).
  reflexivity.
Defined.

Lemma truncate_below_full_scale (q : Q) :
  (-1 <= q)%Q -> (q < 1)%Q -> -32768 <= truncate (q * 32768) < 32768.
Proof.
  intros Hlo Hhi. destruct q as [a d].
  unfold Qle, Qlt in Hlo, Hhi. cbn [Qnum Qden] in Hlo, Hhi.
  change 32768%Q with (inject_Z 32768). rewrite truncate_scale.
  assert (Hd : 0 < Z.pos d) by lia.
  pose proof (Z.quot_rem' (a * 32768) (Z.pos d)) as E.
  destruct (Z.le_ge_cases 0 (a * 32768)) as [Hp | Hn].
  - pose proof (Z.rem_bound_pos (a * 32768) (Z.pos d) Hp Hd). nia.
  - pose proof (Z.rem_bound_pos_neg (a * 32768) (Z.pos d) Hd Hn). nia.
Qed.

(** X3: for a sample of [-1, 1) the frame encoder stores the truncation
    toward zero of [32768 * s]; the value lies in the signed 16-bit range
    (no wrap-around) and, scaled back, is within one quantization step of
    the sample. *)
Theorem createBlob_sample_error (q : Q) :
  (-1 <= q)%Q -> (q < 1)%Q ->
  ToInt16 (fmul (Finite q) 32768) = truncate (q * 32768)
  /\ -32768 <= ToInt16 (fmul (Finite q) 32768) < 32768
  /\ (Qabs ((ToInt16 (fmul (Finite q) 32768) # 32768) - q) <= 1 # 32768)%Q.
Proof.
  intros Hlo Hhi.
  destruct (frame_sample_close q Hlo Hhi) as [Hr Hc].
  split; [| split; assumption].
  cbn [ToInt16 fmul]. apply wrap16_small.
  apply truncate_below_full_scale; assumption.
Qed.

Lemma createBlob_sample_error_witness :
  ToInt16 (fmul (Finite (-1 # 3)) 32768) = truncate ((-1 # 3) * 32768)
  /\ -32768 <= ToInt16 (fmul (Finite (-1 # 3)) 32768) < 32768
  /\ (Qabs ((ToInt16 (fmul (Finite (-1 # 3)) 32768) # 32768) - (-1 # 3))
       <= 1 # 32768)%Q.
Proof.
  apply (createBlob_sample_error (-1 # 3)); [discriminate | reflexivity].
Defined.

(** X4: the first 28 bytes and the data tag of every container: the tags
    [RIFF], [WAVE], [fmt ] and [data] at offsets 0, 8, 12 and 36, the
    RIFF chunk size [36 + 2n] at offset 4, the format chunk size 16 at
    offset 16, format tag 1 (PCM) at offset 20, one channel at offset 22
    and the sample rate at offset 24; the 32-bit fields hold their value
    as long as it fits in 32 bits. *)
Theorem createWavBlob_riff_fields (pcmData : list float) (sampleRate : Z) :
  0 <= sampleRate < 2 ^ 32 ->
  36 + 2 * Z.of_nat (length pcmData) < 2 ^ 32 ->
  exists blob : Blob,
    createWavBlob pcmData sampleRate = Some blob
    /\ blobType blob = str "audio/wav"
    /\ take 4 (blobBytes blob) = str "RIFF"
    /\ getUint32 (blobBytes blob) 4
       = Some (36 + 2 * Z.of_nat (length pcmData))
    /\ take 8 (drop 8 (blobBytes blob)) = str "WAVEfmt "
    /\ getUint32 (blobBytes blob) 16 = Some 16
    /\ getUint16 (blobBytes blob) 20 = Some 1
    /\ getUint16 (blobBytes blob) 22 = Some 1
    /\ getUint32 (blobBytes blob) 24 = Some sampleRate
    /\ take 4 (drop 36 (blobBytes blob)) = str "data".
Proof.
  intros Hr Hn. change (2 ^ 32) with 4294967296 in *.
  rewrite createWavBlob_layout. eexists. split; [reflexivity |].
  cbn [blobBytes blobType].
  split; [reflexivity |]. split; [reflexivity |].
  split.
  { unfold getUint32, getUint8.
    cbn -[Z.land Z.shiftr Z.mul Z.add Z.of_nat].
    f_equal. rewrite le32_decode; lia. }
  split; [reflexivity |]. split; [reflexivity |].
  split; [reflexivity |]. split; [reflexivity |].
  split; [| reflexivity].
  unfold getUint32, getUint8.
  cbn -[Z.land Z.shiftr Z.mul Z.add Z.of_nat].
  f_equal. rewrite le32_decode; lia.
Qed.

Lemma createWavBlob_riff_fields_witness :
  exists blob : Blob,
    createWavBlob [Finite (1 # 2); NaN] SAMPLE_RATE = Some blob
    /\ blobType blob = str "audio/wav"
    /\ take 4 (blobBytes blob) = str "RIFF"
    /\ getUint32 (blobBytes blob) 4 = Some 40
    /\ take 8 (drop 8 (blobBytes blob)) = str "WAVEfmt "
    /\ getUint32 (blobBytes blob) 16 = Some 16
    /\ getUint16 (blobBytes blob) 20 = Some 1
    /\ getUint16 (blobBytes blob) 22 = Some 1
    /\ getUint32 (blobBytes blob) 24 = Some 16000
    /\ take 4 (drop 36 (blobBytes blob)) = str "data".
Proof.
  apply (createWavBlob_riff_fields [Finite (1 # 2); NaN] SAMPLE_RATE);
    vm_compute; intuition congruence.
Defined.

(** X5: the container never wraps.  Whatever the sample (out of range,
    infinite or NaN), the value [createWavBlob] stores lies in the signed
    16-bit range; everything at or above 1 is stored as 32767, everything
    at or below -1 as -32768, and NaN as 0. *)
Theorem wavSample_saturates (x : float) :
  -32768 <= ToInt16 (wavSample x) <= 32767
  /\ (forall q : Q, x = Finite q -> (1 <= q)%Q ->
      ToInt16 (wavSample x) = 32767)
  /\ (forall q : Q, x = Finite q -> (q <= -1)%Q ->
      ToInt16 (wavSample x) = -32768)
  /\ (x = Infinity false -> ToInt16 (wavSample x) = 32767)
  /\ (x = Infinity true -> ToInt16 (wavSample x) = -32768)
  /\ (x = NaN -> ToInt16 (wavSample x) = 0).
Proof.
  split.
  { pose proof (ToInt16_range (wavSample x)). lia. }
  split; [| split; [| split; [| split]]].
  - intros q -> Hq. unfold wavSample, Math_min1.
    destruct (Qle_bool q 1) eqn:E.
    + apply Qle_bool_iff in E.
      assert (Heq : (q == 1)%Q) by (apply Qle_antisym; assumption).
      destruct q as [a d]. unfold Qeq in Heq. cbn [Qnum Qden] in Heq.
      unfold Math_max_neg1.
      assert (Hle : Qle_bool (-1) (a # d) = true).
      { apply Qle_bool_iff. unfold Qle. cbn [Qnum Qden]. lia. }
      rewrite Hle. cbn [fneg Qnum].
      destruct (Z.ltb_spec a 0); [lia |].
      cbn [ToInt16 fmul]. change 32767%Q with (inject_Z 32767).
      rewrite truncate_scale.
      replace (a * 32767) with (32767 * Z.pos d) by lia.
      rewrite Z.quot_mul by lia. reflexivity.
    + reflexivity.
  - intros q -> Hq. unfold wavSample, Math_min1.
    assert (E : Qle_bool q 1 = true).
    { apply Qle_bool_iff. apply Qle_trans with (-1)%Q; [assumption |].
      discriminate. }
    rewrite E. unfold Math_max_neg1.
    destruct (Qle_bool (-1) q) eqn:E'.
    + apply Qle_bool_iff in E'.
      assert (Heq : (q == -1)%Q) by (apply Qle_antisym; assumption).
      destruct q as [a d]. unfold Qeq in Heq. cbn [Qnum Qden] in Heq.
      cbn [fneg Qnum].
      destruct (Z.ltb_spec a 0); [| lia].
      cbn [ToInt16 fmul]. change 32768%Q with (inject_Z 32768).
      rewrite truncate_scale.
      replace (a * 32768) with (-32768 * Z.pos d) by lia.
      rewrite Z.quot_mul by lia. reflexivity.
    + reflexivity.
  - intros ->. reflexivity.
  - intros ->. reflexivity.
  - intros ->. reflexivity.
Qed.

Lemma wavPayload_app (pcm1 pcm2 : list float) :
  wavPayload (pcm1 ++ pcm2) = wavPayload pcm1 ++ wavPayload pcm2.
Proof. unfold wavPayload. apply flat_map_app. Qed.

Lemma wavPayload_concat (chunks : list (list float)) :
  wavPayload (concat chunks) = concat (map wavPayload chunks).
Proof.
  induction chunks as [| c rest IH]; [reflexivity |].
  cbn [concat map]. rewrite wavPayload_app, IH. reflexivity.
Qed.

(** ** The display form *)

(** [nopair], read position by position. *)
Lemma nopair_lookup (bad : Z -> Z -> bool) (s : list Z) :
  nopair bad s = true
  <-> forall (i : nat) (a b : Z),
        s !! i = Some a -> s !! S i = Some b -> bad a b = false.
Proof.
  induction s as [| | a b rest _ IH] using scan_ind.
  - split; [intros _ i a b H; discriminate | reflexivity].
  - split; [| reflexivity]. intros _ [| i] x y H1 H2; discriminate.
  - rewrite nopair_cons, IH. split.
    + intros [Hab Hs] [| i] x y H1 H2.
      * cbn in H1, H2. congruence.
      * apply (Hs i x y); assumption.
    + intros H. split.
      * apply (H 0%nat a b); reflexivity.
      * intros i x y H1 H2. apply (H (S i) x y); assumption.
Qed.

(** X7: after one pass of the display formatting, whatever the buffer,
    no backslash is directly followed by [n], no lower-case letter by an
    upper-case letter, and no letter by a digit. *)
Theorem formattedText_separates (buffer : list Z) (i : nat) (a b : Z) :
  formattedText buffer !! i = Some a ->
  formattedText buffer !! S i = Some b ->
  escapedNewline a b = false
  /\ camelCase a b = false
  /\ letterDigit a b = false.
Proof.
  revert i a b.
  assert (H : nopair escapedNewline (formattedText buffer) = true
              /\ nopair camelCase (formattedText buffer) = true
              /\ nopair letterDigit (formattedText buffer) = true).
  { unfold formattedText.
    set (s1 := replaceEscapedNewlines buffer).
    set (s2 := insertSpaces isLower isUpper s1).
    set (s3 := insertSpaces isPunct isNonSpace s2).
    assert (N1 : nopair escapedNewline s1 = true)
      by apply replaceEscapedNewlines_complete.
    assert (N2 : nopair escapedNewline s2 = true).
    { apply insertSpaces_keeps; [| reflexivity | exact N1].
      intros a. apply andb_false_r. }
    assert (C2 : nopair camelCase s2 = true).
    { apply insertSpaces_complete; [reflexivity | reflexivity |].
      apply (nopair_impl (fun _ _ => false));
        [| clear; induction s1 using scan_ind; auto].
      intros a b H. apply andb_true_iff in H as [H Hb].
      apply andb_true_iff in H as [_ Hu].
      unfold isLower, isUpper in *.
      apply andb_true_iff in Hb as [Hb1 Hb2].
      apply andb_true_iff in Hu as [Hu1 Hu2].
      apply Z.leb_le in Hb1, Hb2, Hu1, Hu2. lia. }
    assert (N3 : nopair escapedNewline s3 = true).
    { apply insertSpaces_keeps; [| reflexivity | exact N2].
      intros a. apply andb_false_r. }
    assert (C3 : nopair camelCase s3 = true).
    { apply insertSpaces_keeps; [| reflexivity | exact C2].
      intros a. apply andb_false_r. }
    split; [| split].
    - apply insertSpaces_keeps; [| reflexivity | exact N3].
      intros a. apply andb_false_r.
    - apply insertSpaces_keeps; [| reflexivity | exact C3].
      intros a. apply andb_false_r.
    - apply insertSpaces_complete; [reflexivity | reflexivity |].
      apply (nopair_impl (fun _ _ => false));
        [| clear; induction s3 using scan_ind; auto].
      intros a b H. apply andb_true_iff in H as [H Hb].
      apply andb_true_iff in H as [_ Hd].
      unfold isLetter, isLower, isUpper, isDigit in *.
      apply andb_true_iff in Hd as [Hd1 Hd2].
      apply Z.leb_le in Hd1, Hd2.
      apply orb_true_iff in Hb as [Hb | Hb];
        apply andb_true_iff in Hb as [Hb1 Hb2];
        apply Z.leb_le in Hb1, Hb2; lia. }
  destruct H as (N & C & D).
  intros i a b Ha Hb.
  split; [| split];
    [apply (proj1 (nopair_lookup _ _) N i a b)
    | apply (proj1 (nopair_lookup _ _) C i a b)
    | apply (proj1 (nopair_lookup _ _) D i a b)]; assumption.
Qed.

Lemma formattedText_separates_witness :
  escapedNewline 97 32 = false
  /\ camelCase 97 32 = false
  /\ letterDigit 97 32 = false.
Proof.
  apply (formattedText_separates (str "aB1") 0 97 32); reflexivity.
Defined.

Lemma unspaced_insertSpaces (p1 p2 : Z -> bool) (s : list Z) :
  unspaced (insertSpaces p1 p2 s) = unspaced s.
Proof.
  induction s as [| | a b rest IH0 IH1] using scan_ind;
    [reflexivity | reflexivity |].
  rewrite insertSpaces_step. destruct (p1 a && p2 b).
  - unfold unspaced in *. rewrite !filter_cons.
    rewrite IH0. destruct (decide (a <> 32)), (decide (b <> 32));
      destruct (decide (32 <> 32)); try congruence; reflexivity.
  - unfold unspaced in *. rewrite !(filter_cons _ a).
    rewrite IH1. reflexivity.
Qed.

(** X8: the display formatting never deletes or reorders text: apart
    from the replacement of the escaped newlines, it only inserts
    spaces.  With the spaces taken out, the formatted buffer is the
    buffer after that replacement; for a buffer without an escaped
    newline it is the buffer itself. *)
Theorem formattedText_only_adds_spaces (buffer : list Z) :
  unspaced (formattedText buffer) = unspaced (replaceEscapedNewlines buffer)
  /\ (nopair escapedNewline buffer = true ->
      unspaced (formattedText buffer) = unspaced buffer)
  /\ (length (replaceEscapedNewlines buffer)
      <= length (formattedText buffer))%nat.
Proof.
  assert (E : unspaced (formattedText buffer)
              = unspaced (replaceEscapedNewlines buffer)).
  { unfold formattedText. rewrite !unspaced_insertSpaces. reflexivity. }
  split; [exact E |]. split.
  - intros H. rewrite E, (replaceEscapedNewlines_id buffer H). reflexivity.
  - assert (L : forall p1 p2 s,
               (length s <= length (insertSpaces p1 p2 s))%nat).
    { intros p1 p2 s.
      induction s as [| | a b rest IH0 IH1] using scan_ind;
        [reflexivity | reflexivity |].
      rewrite insertSpaces_step. destruct (p1 a && p2 b); cbn [length] in *;
        lia. }
    unfold formattedText.
    pose proof (L isLetter isDigit
                  (insertSpaces isPunct isNonSpace
                     (insertSpaces isLower isUpper
                        (replaceEscapedNewlines buffer)))).
    pose proof (L isPunct isNonSpace
                  (insertSpaces isLower isUpper
                     (replaceEscapedNewlines buffer))).
    pose proof (L isLower isUpper (replaceEscapedNewlines buffer)).
    lia.
Qed.

(** ** The hook's callbacks *)

Lemma responseTextOf_no_text (ps : list Part) :
  Forall (fun p => text p = None \/ text p = Some []) ps ->
  responseTextOf ps = [].
Proof.
  unfold responseTextOf. induction 1 as [| p rest Hp _ IH]; [reflexivity |].
  change (omap text (p :: rest))
    with (match text p with
          | Some t => t :: omap text rest
          | None => omap text rest
          end).
  destruct Hp as [-> | ->]; [exact IH |].
  rewrite filter_cons.
  destruct (decide (truthy_string [] = true)) as [E | _]; [discriminate |].
  exact IH.
Qed.

(** X9: a message without text (no server content, no model turn, no
    parts, or only parts whose text is missing or empty) records its
    arrival time and does nothing else: the buffer is untouched and no
    update is delivered. *)
Theorem onmessage_without_text (toUpperCase : list Z -> list Z)
    (now : Z) (message : LiveServerMessage) (w : Hook) :
  (forall ps : list Part,
     modelTurnParts message = Some ps ->
     Forall (fun p => text p = None \/ text p = Some []) ps) ->
  exec (onmessage toUpperCase now message) w
  = set_lastMessageTimeRef (Some now) w.
Proof.
  intros H. unfold onmessage. hook_unfold.
  destruct (modelTurnParts message) as [ps |]; [| reflexivity].
  rewrite (responseTextOf_no_text ps (H ps eq_refl)). reflexivity.
Qed.

Lemma onmessage_without_text_witness :
  exec (onmessage asciiToUpperCase 1400
          {| serverContent :=
               Some {| modelTurn :=
                         Some {| parts := Some [{| text := None |};
                                                {| text := Some [] |}] |} |} |})
       dictating
  = set_lastMessageTimeRef (Some 1400) dictating.
Proof.
  apply (onmessage_without_text asciiToUpperCase 1400 _ dictating).
  intros ps H. injection H as <-.
  constructor; [left; reflexivity |].
  constructor; [right; reflexivity | constructor].
Defined.

(** The hook after [cleanUpSession], field by field. *)
Lemma cleanUpSession_result (w : Hook) :
  exec cleanUpSession w
  = {| status := status w; error := error w;
       isSessionActive := false; isPaused := false;
       sessionPromiseRef := false; inputAudioContextRef := false;
       scriptProcessorNodeRef := false; sourceNodeRef := false;
       streamRef := false; bufferRef := []; lastMessageTimeRef := None;
       capturedAudioChunksRef := [];
       isSessionActiveForCallback := isSessionActiveForCallback w;
       isPausedForCallback := isPausedForCallback w;
       sessionPromise :=
         if sessionPromiseRef w then
           match sessionPromise w with
           | Pending rs => Pending (rs ++ [CloseSession])
           | p => p
           end
         else sessionPromise w;
       sentFrames := sentFrames w;
       transcriptUpdates := transcriptUpdates w;
       mediaRequests := mediaRequests w;
       tracksStopped :=
         if streamRef w then S (tracksStopped w) else tracksStopped w;
       connects := connects w;
       closeRequests :=
         if sessionPromiseRef w then
           match sessionPromise w with
           | Fulfilled => S (closeRequests w)
           | _ => closeRequests w
           end
         else closeRequests w |}.
Proof.
  destruct w. hook_simpl. hook_cases; reflexivity.
Qed.

(** X10: [cleanUpSession] is idempotent: run a second time (an error
    callback racing with a stop, a close after an error) it changes
    nothing, so the tracks are stopped and the channel is asked to close
    once. *)
Theorem cleanUpSession_idempotent (w : Hook) :
  exec cleanUpSession (exec cleanUpSession w) = exec cleanUpSession w.
Proof.
  rewrite (cleanUpSession_result (exec cleanUpSession w)).
  rewrite (cleanUpSession_result w). reflexivity.
Qed.

(** [stopSession] on an active hook: its result and the hook it leaves. *)
Lemma stopSession_eq (w : Hook) :
  isSessionActiveForCallback w = true ->
  stopSession w
  = (Return
       {| transcript := trim (bufferRef w);
          audioBlob :=
            match capturedAudioChunksRef w with
            | [] => None
            | _ :: _ =>
                let concatenated := concat (capturedAudioChunksRef w) in
                Some {| blobBytes :=
                          wavHeader (length concatenated) SAMPLE_RATE
                          ++ wavPayload concatenated;
                        blobType := str "audio/wav" |}
            end |},
     exec cleanUpSession (set_status (str "Session stopped.") w)).
Proof.
  destruct w.
  cbn [isSessionActiveForCallback capturedAudioChunksRef bufferRef].
  intros ->. hook_simpl.
  match goal with |- context [length ?c] => destruct c as [| chunk chunks] end;
    hook_cbn.
  - hook_cases; reflexivity.
  - rewrite createWavBlob_layout. hook_cbn. hook_cases; reflexivity.
Qed.

Lemma stopSession_inactive (w : Hook) :
  isSessionActiveForCallback w = false ->
  stopSession w = (Return {| transcript := []; audioBlob := None |}, w).
Proof. intros H. hook_unfold. rewrite H. reflexivity. Qed.

(** X11: a second [stopSession] right after the first returns the empty
    transcript and no container and leaves the hook as the first one left
    it; after a stop that found the session active, this also holds once
    the render has mirrored the flags. *)
Theorem stopSession_twice (w : Hook) :
  stopSession (exec stopSession w)
  = (Return {| transcript := []; audioBlob := None |}, exec stopSession w)
  /\ (isSessionActiveForCallback w = true ->
      stopSession (exec render (exec stopSession w))
      = (Return {| transcript := []; audioBlob := None |},
         exec render (exec stopSession w))).
Proof.
  destruct (isSessionActiveForCallback w) eqn:Hact.
  - assert (E : exec stopSession w
                = exec cleanUpSession (set_status (str "Session stopped.") w)).
    { unfold exec at 1. rewrite (stopSession_eq w Hact). reflexivity. }
    rewrite E. rewrite (cleanUpSession_result _).
    split.
    + rewrite stopSession_eq by exact Hact.
      cbn [bufferRef capturedAudioChunksRef]. f_equal.
    + intros _. apply stopSession_inactive. reflexivity.
  - assert (E : exec stopSession w = w).
    { unfold exec. rewrite (stopSession_inactive w Hact). reflexivity. }
    rewrite E. split; [| discriminate].
    apply stopSession_inactive. exact Hact.
Qed.

(** X12: without an API key (none stored, or the empty string)
    [startSession] only reports the missing key: it asks for no device,
    opens no channel, and leaves everything but the error message as it
    was. *)
Theorem startSession_missing_key (apiKey : option (list Z)) (w : Hook) :
  isSessionActiveForCallback w = false ->
  apiKey = None \/ apiKey = Some [] ->
  startSession apiKey w
  = (false,
     set_error (str "Missing API Key. Please add it in settings.") w).
Proof.
  intros Hidle [-> | ->]; hook_unfold; rewrite Hidle; reflexivity.
Qed.

Lemma startSession_missing_key_witness :
  startSession None initial
  = (false,
     set_error (str "Missing API Key. Please add it in settings.") initial).
Proof.
  apply (startSession_missing_key None initial); [reflexivity | left].
  reflexivity.
Defined.

(** X6: what [onmessage] stores is in display form.  When the buffer
    with the new fragment appended has no two adjacent punctuation marks,
    the stored buffer is a fixed point of the formatting, however often
    it is formatted again, and the lines delivered to the caller are its
    lines, capitalized. *)
Theorem onmessage_stores_display_form (toUpperCase : list Z -> list Z)
    (now : Z) (message : LiveServerMessage) (ps : list Part) (w : Hook) :
  modelTurnParts message = Some ps ->
  responseTextOf ps <> [] ->
  let gap :=
    if truthy_number (lastMessageTimeRef w)
    then now - default 0 (lastMessageTimeRef w) else 0 in
  nopair punctPunct
    (bufferRef w ++ separatorFor gap (bufferRef w) (responseTextOf ps)
     ++ responseTextOf ps) = true ->
  let w' := exec (onmessage toUpperCase now message) w in
  (forall n : nat, Nat.iter n formattedText (bufferRef w') = bufferRef w')
  /\ last (transcriptUpdates w')
     = Some (map (capitalizeLine toUpperCase) (split_lines (bufferRef w'))).
Proof.
  intros Hps Htext gap Hpp w'.
  pose proof (onmessage_text toUpperCase now message ps w Hps Htext) as E.
  cbv zeta in E. fold gap in E. fold w' in E. rewrite E.
  cbn [bufferRef transcriptUpdates set_transcriptUpdates set_bufferRef
       set_lastMessageTimeRef].
  split.
  - induction n as [| n IH]; [reflexivity |].
    rewrite Nat.iter_succ, IH. apply formattedText_stable. exact Hpp.
  - apply last_snoc.
Qed.

Lemma onmessage_stores_display_form_witness :
  let w' :=
    exec (onmessage asciiToUpperCase 1000
            (textMessage (str "noted.see image3"))) dictating in
  (forall n : nat, Nat.iter n formattedText (bufferRef w') = bufferRef w')
  /\ last (transcriptUpdates w')
     = Some (map (capitalizeLine asciiToUpperCase)
               (split_lines (bufferRef w'))).
Proof.
  apply (onmessage_stores_display_form asciiToUpperCase 1000
           (textMessage (str "noted.see image3"))
           [{| text := Some (str "noted.see image3") |}] dictating).
  - reflexivity.
  - discriminate.
  - vm_compute. reflexivity.
Defined.

(** An accepted [startSession], up to its [await]. *)
Lemma startSession_accepted (key : list Z) (w : Hook) :
  isSessionActiveForCallback w = false ->
  key <> [] ->
  startSession (Some key) w
  = (true,
     {| status := str "Connecting..."; error := [];
        isSessionActive := isSessionActive w; isPaused := false;
        sessionPromiseRef := sessionPromiseRef w;
        inputAudioContextRef := inputAudioContextRef w;
        scriptProcessorNodeRef := scriptProcessorNodeRef w;
        sourceNodeRef := sourceNodeRef w; streamRef := streamRef w;
        bufferRef := []; lastMessageTimeRef := None;
        capturedAudioChunksRef := [];
        isSessionActiveForCallback := false;
        isPausedForCallback := isPausedForCallback w;
        sessionPromise := sessionPromise w; sentFrames := sentFrames w;
        transcriptUpdates := transcriptUpdates w ++ [[]];
        mediaRequests := S (mediaRequests w);
        tracksStopped :=
          if streamRef w then S (tracksStopped w) else tracksStopped w;
        connects := connects w; closeRequests := closeRequests w |}).
Proof.
  destruct w. cbn [isSessionActiveForCallback]. intros -> Hkey.
  destruct key as [| c key]; [congruence |].
  hook_simpl. hook_cases; reflexivity.
Qed.

(** X13: [stopSession] on an active hook releases everything: the four
    audio references and the channel reference are null, buffer, archive
    and time stamp are reset, both flags are cleared, the tracks of a
    held stream are stopped once and an established channel is asked to
    close once; after the next render a new [startSession] is accepted. *)
Theorem stopSession_releases (w : Hook) :
  isSessionActiveForCallback w = true ->
  let w' := exec stopSession w in
  status w' = str "Session stopped."
  /\ isSessionActive w' = false /\ isPaused w' = false
  /\ streamRef w' = false /\ scriptProcessorNodeRef w' = false
  /\ sourceNodeRef w' = false /\ inputAudioContextRef w' = false
  /\ sessionPromiseRef w' = false
  /\ bufferRef w' = [] /\ capturedAudioChunksRef w' = []
  /\ lastMessageTimeRef w' = None
  /\ tracksStopped w'
     = (if streamRef w then S (tracksStopped w) else tracksStopped w)
  /\ (sessionPromiseRef w = true -> sessionPromise w = Fulfilled ->
      closeRequests w' = S (closeRequests w))
  /\ (forall key : list Z,
        key <> [] ->
        fst (startSession (Some key) (exec render w')) = true).
Proof.
  intros Hact w'.
  assert (E : w' = exec cleanUpSession
                     (set_status (str "Session stopped.") w)).
  { subst w'. unfold exec at 1. rewrite (stopSession_eq w Hact).
    reflexivity. }
  rewrite E, (cleanUpSession_result _).
  cbn [status isSessionActive isPaused streamRef scriptProcessorNodeRef
       sourceNodeRef inputAudioContextRef sessionPromiseRef bufferRef
       capturedAudioChunksRef lastMessageTimeRef tracksStopped closeRequests
       set_status sessionPromise].
  repeat (split; [reflexivity |]).
  split.
  - intros -> ->. reflexivity.
  - intros key Hkey. rewrite startSession_accepted; [reflexivity | | exact Hkey].
    reflexivity.
Qed.

Lemma stopSession_releases_witness :
  let w' := exec stopSession dictating in
  status w' = str "Session stopped."
  /\ isSessionActive w' = false /\ isPaused w' = false
  /\ streamRef w' = false /\ scriptProcessorNodeRef w' = false
  /\ sourceNodeRef w' = false /\ inputAudioContextRef w' = false
  /\ sessionPromiseRef w' = false
  /\ bufferRef w' = [] /\ capturedAudioChunksRef w' = []
  /\ lastMessageTimeRef w' = None
  /\ tracksStopped w' = 1%nat
  /\ (sessionPromiseRef dictating = true ->
      sessionPromise dictating = Fulfilled ->
      closeRequests w' = 1%nat)
  /\ (forall key : list Z,
        key <> [] ->
        fst (startSession (Some key) (exec render w')) = true).
Proof.
  apply (stopSession_releases dictating). reflexivity.
Defined.

(** X14: when the device is refused, the session that was starting ends
    idle with the failure reported: no channel has been opened, no stream
    is held, the error and status lines say so, and [startSession] can be
    called again. *)
Theorem startSession_device_refused (key message : list Z) (w : Hook) :
  isSessionActiveForCallback w = false ->
  key <> [] ->
  let w' :=
    exec (startSession_denied message) (exec (startSession (Some key)) w) in
  error w' = str "Failed to start session: " ++ message
  /\ status w' = str "Session failed to start."
  /\ isSessionActive w' = false
  /\ streamRef w' = false /\ sessionPromiseRef w' = false
  /\ connects w' = connects w
  /\ mediaRequests w' = S (mediaRequests w)
  /\ sentFrames w' = sentFrames w
  /\ fst (startSession (Some key) w') = true.
Proof.
  intros Hidle Hkey w'.
  pose proof (startSession_accepted key w Hidle Hkey) as A.
  apply (f_equal snd) in A. cbn [snd] in A.
  change (snd (startSession (Some key) w))
    with (exec (startSession (Some key)) w) in A.
  assert (E : w' = exec cleanUpSession
                     (set_status (str "Session failed to start.")
                        (set_error (str "Failed to start session: " ++ message)
                           (exec (startSession (Some key)) w)))).
  { reflexivity. }
  rewrite E, A, (cleanUpSession_result _).
  cbn [error status isSessionActive streamRef sessionPromiseRef connects
       mediaRequests sentFrames set_status set_error].
  repeat (split; [reflexivity |]).
  rewrite startSession_accepted; [reflexivity | reflexivity | exact Hkey].
Qed.

Lemma startSession_device_refused_witness :
  let w' :=
    exec (startSession_denied (str "Permission denied"))
         (exec (startSession (Some (str "key"))) initial) in
  error w' = str "Failed to start session: " ++ str "Permission denied"
  /\ status w' = str "Session failed to start."
  /\ isSessionActive w' = false
  /\ streamRef w' = false /\ sessionPromiseRef w' = false
  /\ connects w' = connects initial
  /\ mediaRequests w' = S (mediaRequests initial)
  /\ sentFrames w' = sentFrames initial
  /\ fst (startSession (Some (str "key")) w') = true.
Proof.
  apply (startSession_device_refused (str "key") (str "Permission denied")
           initial); [reflexivity | discriminate].
Defined.

Lemma connectRejected_pending (message : list Z) (rs : list Reaction)
    (w : Hook) :
  sessionPromise w = Pending rs ->
  exec (connectRejected message) w
  = if isSessionActiveForCallback w
    then set_sessionPromise Rejected w
    else exec cleanUpSession
           (set_status (str "Session failed to start.")
              (set_error (str "Failed to start session: " ++ message)
                 (set_sessionPromise Rejected w))).
Proof.
  intros H. unfold connectRejected.
  cbv [exec mbind M_bind mret M_ret get modify when setStatus setError].
  rewrite H. cbn [isSessionActiveForCallback set_sessionPromise].
  destruct (isSessionActiveForCallback w); cbn [negb];
    [reflexivity |].
  destruct (cleanUpSession _). reflexivity.
Qed.

(** X15: when the connection is refused before the channel has opened,
    the failure is reported and the session cleaned up: what was queued
    on the promise (frames, a close request) is dropped, so nothing is
    sent and no close is requested; once the session is active, a
    rejection is ignored. *)
Theorem connectRejected_before_open (message : list Z) (rs : list Reaction)
    (w : Hook) :
  sessionPromise w = Pending rs ->
  let w' := exec (connectRejected message) w in
  sessionPromise w' = Rejected
  /\ sentFrames w' = sentFrames w
  /\ closeRequests w' = closeRequests w
  /\ (isSessionActiveForCallback w = false ->
      error w' = str "Failed to start session: " ++ message
      /\ status w' = str "Session failed to start."
      /\ isSessionActive w' = false
      /\ streamRef w' = false /\ sessionPromiseRef w' = false
      /\ bufferRef w' = [] /\ capturedAudioChunksRef w' = []
      /\ tracksStopped w'
         = (if streamRef w then S (tracksStopped w) else tracksStopped w))
  /\ (isSessionActiveForCallback w = true ->
      w' = set_sessionPromise Rejected w).
Proof.
  intros Hp w'. subst w'.
  rewrite (connectRejected_pending message rs w Hp).
  destruct (isSessionActiveForCallback w).
  - split; [reflexivity |]. split; [reflexivity |]. split; [reflexivity |].
    split; [discriminate | reflexivity].
  - rewrite (cleanUpSession_result _).
    cbn [sessionPromise sentFrames closeRequests error status isSessionActive
         streamRef sessionPromiseRef bufferRef capturedAudioChunksRef
         tracksStopped set_status set_error set_sessionPromise].
    split; [destruct (sessionPromiseRef w); reflexivity |].
    split; [reflexivity |].
    split; [destruct (sessionPromiseRef w); reflexivity |].
    split; [| discriminate].
    intros _. repeat (split; [reflexivity |]). reflexivity.
Qed.

Lemma connectRejected_before_open_witness :
  let w' := exec (connectRejected (str "503")) connecting in
  sessionPromise w' = Rejected
  /\ sentFrames w' = sentFrames connecting
  /\ closeRequests w' = closeRequests connecting
  /\ (isSessionActiveForCallback connecting = false ->
      error w' = str "Failed to start session: " ++ str "503"
      /\ status w' = str "Session failed to start."
      /\ isSessionActive w' = false
      /\ streamRef w' = false /\ sessionPromiseRef w' = false
      /\ bufferRef w' = [] /\ capturedAudioChunksRef w' = []
      /\ tracksStopped w'
         = (if streamRef connecting then S (tracksStopped connecting)
            else tracksStopped connecting))
  /\ (isSessionActiveForCallback connecting = true ->
      w' = set_sessionPromise Rejected connecting).
Proof.
  apply (connectRejected_before_open (str "503") [] connecting). reflexivity.
Defined.

(** X16: resuming undoes pausing.  On an active, unpaused hook, pause,
    render, resume, render leave everything as it was except the status
    line; in between, the mirrored pause flag is set, and buffer, archive
    and channel are untouched throughout. *)
Theorem pause_resume (toUpperCase : list Z -> list Z) (w : Hook) :
  isSessionActive w = true ->
  isSessionActiveForCallback w = true ->
  isPaused w = false ->
  isPausedForCallback w = false ->
  run toUpperCase w [PauseSession; Render; ResumeSession; Render]
  = set_status (str "Live session resumed. Listening...") w
  /\ run toUpperCase w [PauseSession; Render]
     = set_isPausedForCallback true
         (set_isPaused true (set_status (str "Live session paused...") w)).
Proof.
  destruct w.
  cbn [isSessionActive isSessionActiveForCallback isPaused
       isPausedForCallback].
  intros -> -> -> ->. split; reflexivity.
Qed.

Lemma pause_resume_witness :
  run asciiToUpperCase active
      [PauseSession; Render; ResumeSession; Render]
  = set_status (str "Live session resumed. Listening...") active
  /\ run asciiToUpperCase active [PauseSession; Render]
     = set_isPausedForCallback true
         (set_isPaused true
            (set_status (str "Live session paused...") active)).
Proof.
  apply (pause_resume asciiToUpperCase active); reflexivity.
Defined.

(** X17: what [stopSession] returns for the audio.  On an active hook
    the container is null exactly when no frame has been archived;
    otherwise it is a WAV file of [44 + 2 * total] bytes at 16000 Hz
    whose payload is the payloads of the archived chunks in arrival
    order. *)
Theorem stopSession_container (w : Hook) :
  isSessionActiveForCallback w = true ->
  exists result : StopResult,
    fst (stopSession w) = Return result
    /\ (capturedAudioChunksRef w = [] -> audioBlob result = None)
    /\ (capturedAudioChunksRef w <> [] ->
        exists blob : Blob,
          audioBlob result = Some blob
          /\ blobType blob = str "audio/wav"
          /\ length (blobBytes blob)
             = (44 + 2 * length (concat (capturedAudioChunksRef w)))%nat
          /\ getUint32 (blobBytes blob) 24 = Some 16000
          /\ drop 44 (blobBytes blob)
             = concat (map wavPayload (capturedAudioChunksRef w))).
Proof.
  intros Hact. rewrite (stopSession_eq w Hact). eexists.
  split; [reflexivity |]. cbn [fst audioBlob].
  destruct (capturedAudioChunksRef w) as [| c cs] eqn:E.
  - split; [reflexivity | congruence].
  - split; [discriminate |]. intros _. eexists.
    split; [reflexivity |]. cbn [blobBytes blobType].
    split; [reflexivity |].
    split; [rewrite length_app, wavPayload_length; reflexivity |].
    split; [reflexivity |].
    rewrite drop_app_length'; [| reflexivity].
    apply wavPayload_concat.
Qed.

Lemma stopSession_container_witness :
  exists result : StopResult,
    fst (stopSession dictating) = Return result
    /\ (capturedAudioChunksRef dictating = [] -> audioBlob result = None)
    /\ (capturedAudioChunksRef dictating <> [] ->
        exists blob : Blob,
          audioBlob result = Some blob
          /\ blobType blob = str "audio/wav"
          /\ length (blobBytes blob)
             = (44 + 2 * length (concat (capturedAudioChunksRef dictating)))%nat
          /\ getUint32 (blobBytes blob) 24 = Some 16000
          /\ drop 44 (blobBytes blob)
             = concat (map wavPayload (capturedAudioChunksRef dictating))).
Proof. apply (stopSession_container dictating). reflexivity. Defined.

(** *** Trimming *)

Lemma trimStart_split (s : list Z) :
  exists ws : list Z,
    s = ws ++ trimStart s /\ forallb isWhiteSpace ws = true.
Proof.
  induction s as [| c s (ws & E & H)]; [exists []; auto |].
  cbn [trimStart]. destruct (isWhiteSpace c) eqn:Hc.
  - exists (c :: ws). cbn [app forallb]. rewrite Hc, H.
    split; [f_equal; exact E | reflexivity].
  - exists []. auto.
Qed.

Lemma trimStart_head (s : list Z) : startsWithSpace (trimStart s) = false.
Proof.
  induction s as [| c s IH]; [reflexivity |].
  cbn [trimStart]. destruct (isWhiteSpace c) eqn:Hc; [exact IH |].
  cbn [startsWithSpace]. exact Hc.
Qed.

Lemma endsWithSpace_reverse (s : list Z) :
  endsWithSpace (reverse s) = startsWithSpace s.
Proof.
  destruct s as [| c s]; [reflexivity |].
  unfold endsWithSpace. rewrite reverse_cons, last_snoc. reflexivity.
Qed.

Lemma forallb_reverse (p : Z -> bool) (s : list Z) :
  forallb p (reverse s) = forallb p s.
Proof.
  induction s as [| c s IH]; [reflexivity |].
  rewrite reverse_cons, forallb_app, IH. cbn [forallb].
  rewrite andb_true_r. apply andb_comm.
Qed.

(** The two ends [trim] cuts off. *)
Lemma trim_split (s : list Z) :
  exists before after : list Z,
    s = before ++ trim s ++ after
    /\ forallb isWhiteSpace before = true
    /\ forallb isWhiteSpace after = true.
Proof.
  destruct (trimStart_split s) as (before & E1 & H1).
  destruct (trimStart_split (reverse (trimStart s))) as (ws & E2 & H2).
  exists before, (reverse ws). split; [| split].
  - unfold trim, trimEnd. rewrite <- reverse_app, <- E2, reverse_involutive.
    exact E1.
  - exact H1.
  - rewrite forallb_reverse. exact H2.
Qed.

(** X18: the transcript [stopSession] returns is the stored buffer with
    the white space at its two ends cut off and nothing else removed; it
    neither starts nor ends with white space. *)
Theorem stopSession_transcript (w : Hook) :
  isSessionActiveForCallback w = true ->
  exists (result : StopResult) (before after : list Z),
    fst (stopSession w) = Return result
    /\ bufferRef w = before ++ transcript result ++ after
    /\ forallb isWhiteSpace before = true
    /\ forallb isWhiteSpace after = true
    /\ startsWithSpace (transcript result) = false
    /\ endsWithSpace (transcript result) = false.
Proof.
  intros Hact. rewrite (stopSession_eq w Hact).
  destruct (trim_split (bufferRef w)) as (before & after & E & H1 & H2).
  eexists. exists before, after. split; [reflexivity |].
  cbn [transcript]. split; [exact E |]. split; [exact H1 |].
  split; [exact H2 |]. split.
  - unfold trim, trimEnd.
    destruct (trimStart_split (reverse (trimStart (bufferRef w))))
      as (ws & E2 & _).
    pose proof (trimStart_head (bufferRef w)) as Hh.
    apply (f_equal reverse) in E2. rewrite reverse_involutive in E2.
    rewrite reverse_app in E2.
    destruct (reverse (trimStart (reverse (trimStart (bufferRef w)))))
      as [| c t]; [reflexivity |].
    rewrite E2 in Hh. exact Hh.
  - unfold trim, trimEnd. rewrite endsWithSpace_reverse.
    apply trimStart_head.
Qed.

Lemma stopSession_transcript_witness :
  exists (result : StopResult) (before after : list Z),
    fst (stopSession dictating) = Return result
    /\ bufferRef dictating = before ++ transcript result ++ after
    /\ forallb isWhiteSpace before = true
    /\ forallb isWhiteSpace after = true
    /\ startsWithSpace (transcript result) = false
    /\ endsWithSpace (transcript result) = false.
Proof. apply (stopSession_transcript dictating). reflexivity. Defined.

(** ** Sequences of events *)

Lemma exec_bind {A : Type} (m : M A) (f : A -> M unit) (w : Hook) :
  exec (m ≫= f) w = exec (f (fst (m w))) (snd (m w)).
Proof.
  unfold exec, mbind, M_bind. destruct (m w). reflexivity.
Qed.

(** What one reaction leaves alone, and what it sends. *)
Lemma react_frame (r : Reaction) (w : Hook) :
  capturedAudioChunksRef (exec (react r) w) = capturedAudioChunksRef w
  /\ bufferRef (exec (react r) w) = bufferRef w
  /\ isSessionActiveForCallback (exec (react r) w)
     = isSessionActiveForCallback w
  /\ isPausedForCallback (exec (react r) w) = isPausedForCallback w
  /\ sessionPromise (exec (react r) w) = sessionPromise w
  /\ sentFrames (exec (react r) w)
     = sentFrames w
       ++ match r with
          | SendFrame pcmData =>
              if gateClosed w then [] else omap createBlob [pcmData]
          | CloseSession => []
          end.
Proof.
  destruct w, r; unfold gateClosed; hook_simpl;
    rewrite ?createBlob_total; hook_cbn.
  - hook_cases; rewrite ?app_nil_r; repeat split; reflexivity.
  - rewrite app_nil_r. repeat split; reflexivity.
Qed.

Lemma reactAll_frame (rs : list Reaction) :
  forall w : Hook,
    capturedAudioChunksRef (exec (reactAll rs) w) = capturedAudioChunksRef w
    /\ bufferRef (exec (reactAll rs) w) = bufferRef w
    /\ isSessionActiveForCallback (exec (reactAll rs) w)
       = isSessionActiveForCallback w
    /\ isPausedForCallback (exec (reactAll rs) w) = isPausedForCallback w
    /\ sessionPromise (exec (reactAll rs) w) = sessionPromise w
    /\ (gateClosed w = true ->
        sentFrames (exec (reactAll rs) w) = sentFrames w)
    /\ (gateClosed w = false ->
        sentFrames (exec (reactAll rs) w)
        = sentFrames w
          ++ omap (fun r => match r with
                            | SendFrame pcmData => createBlob pcmData
                            | CloseSession => None
                            end) rs).
Proof.
  induction rs as [| r rs IH]; intros w.
  - cbn [reactAll omap]. rewrite app_nil_r. repeat split; reflexivity.
  - cbn [reactAll]. rewrite exec_bind.
    change (snd (react r w)) with (exec (react r) w).
    destruct (react_frame r w) as (C & B & A & P & S & F).
    destruct (IH (exec (react r) w)) as (C' & B' & A' & P' & S' & F1 & F2).
    assert (G : gateClosed (exec (react r) w) = gateClosed w)
      by (unfold gateClosed; rewrite A, P; reflexivity).
    rewrite G in F1, F2.
    split; [congruence |]. split; [congruence |]. split; [congruence |].
    split; [congruence |]. split; [congruence |]. split.
    + intros Hg. rewrite (F1 Hg), F. destruct r; rewrite ?Hg;
        apply app_nil_r.
    + intros Hg. rewrite (F2 Hg), F.
      destruct r as [pcmData |]; rewrite ?Hg, <- app_assoc.
      * f_equal.
        destruct (createBlob pcmData) eqn:E; cbn -[createBlob];
          rewrite ?E; reflexivity.
      * reflexivity.
Qed.

Lemma connectFulfilled_eq (w : Hook) :
  exec connectFulfilled w
  = match sessionPromise w with
    | Pending rs => exec (reactAll rs) (set_sessionPromise Fulfilled w)
    | _ => w
    end.
Proof.
  unfold connectFulfilled.
  cbv [exec mbind M_bind mret M_ret get modify].
  destruct (sessionPromise w); reflexivity.
Qed.

(** The flags the send path tests change only when a render commits, and
    with the test failing no callback sends. *)
Lemma step_gate (toUpperCase : list Z -> list Z) (e : Event) (w : Hook) :
  isRender e = false ->
  isSessionActiveForCallback (step toUpperCase w e)
  = isSessionActiveForCallback w
  /\ isPausedForCallback (step toUpperCase w e) = isPausedForCallback w
  /\ (gateClosed w = true ->
      sentFrames (step toUpperCase w e) = sentFrames w).
Proof.
  intros Hr. destruct e; try discriminate; cbn [step].
  - (* StartSession *)
    destruct w, apiKey as [[| c key] |]; hook_simpl;
      hook_cases; repeat split; reflexivity.
  - (* MediaGranted *)
    destruct w. repeat split; reflexivity.
  - (* MediaDenied *)
    destruct w. hook_simpl. hook_cases; repeat split; reflexivity.
  - (* ConnectFulfilled *)
    rewrite connectFulfilled_eq.
    destruct (sessionPromise w) as [| rs | |];
      try (repeat split; reflexivity).
    destruct (reactAll_frame rs (set_sessionPromise Fulfilled w))
      as (_ & _ & A & P & _ & F & _).
    split; [exact A |]. split; [exact P |]. exact F.
  - (* ConnectRejected *)
    destruct w. unfold connectRejected. hook_simpl.
    hook_cases; repeat split; reflexivity.
  - (* OnOpen *)
    destruct w. repeat split; reflexivity.
  - (* OnClose *)
    destruct w. hook_simpl. hook_cases; repeat split; reflexivity.
  - (* OnError *)
    destruct w. hook_simpl. hook_cases; repeat split; reflexivity.
  - (* OnMessage *)
    unfold onmessage. hook_unfold.
    destruct (modelTurnParts message) as [ps |];
      [| repeat split; reflexivity].
    destruct (truthy_string (responseTextOf ps)); repeat split; reflexivity.
  - (* OnAudioProcess *)
    destruct w. unfold gateClosed. hook_simpl.
    rewrite ?createBlob_total. hook_cbn.
    hook_cases; repeat split; intros; try discriminate; reflexivity.
  - (* PauseSession *)
    destruct w. hook_simpl. hook_cases; repeat split; reflexivity.
  - (* ResumeSession *)
    destruct w. hook_simpl. hook_cases; repeat split; reflexivity.
  - (* StopSession *)
    destruct (isSessionActiveForCallback w) eqn:Hact.
    + unfold exec. rewrite (stopSession_eq w Hact). cbn [snd].
      change (snd (cleanUpSession ?x)) with (exec cleanUpSession x).
      rewrite (cleanUpSession_result _).
      cbn [isSessionActiveForCallback isPausedForCallback sentFrames
           set_status].
      repeat split; intros;
        first [reflexivity | exact Hact | symmetry; exact Hact].
    + unfold exec. rewrite (stopSession_inactive w Hact).
      repeat split; intros;
        first [reflexivity | exact Hact | symmetry; exact Hact].
Qed.

(** X19: while the send path is closed (the session is not active, or it
    is paused, as mirrored in the two refs) nothing is sent, whatever
    happens: frames, messages, the connection opening or failing,
    start, stop, pause and resume calls.  Only a render, which updates
    the refs, can open the path again. *)
Theorem nothing_sent_while_gate_closed (toUpperCase : list Z -> list Z)
    (es : list Event) (w : Hook) :
  gateClosed w = true ->
  forallb (fun e => negb (isRender e)) es = true ->
  sentFrames (run toUpperCase w es) = sentFrames w
  /\ gateClosed (run toUpperCase w es) = true.
Proof.
  revert w. induction es as [| e es IH]; intros w Hg Hes.
  - split; [reflexivity | exact Hg].
  - cbn [forallb] in Hes. apply andb_true_iff in Hes as [He Hes].
    apply negb_true_iff in He.
    destruct (step_gate toUpperCase e w He) as (A & P & F).
    assert (Hg' : gateClosed (step toUpperCase w e) = true)
      by (unfold gateClosed; rewrite A, P; exact Hg).
    cbn [run foldl].
    destruct (IH (step toUpperCase w e) Hg' Hes) as [IH1 IH2].
    split; [| exact IH2].
    unfold run in IH1. rewrite IH1. apply F. exact Hg.
Qed.

Lemma nothing_sent_while_gate_closed_witness :
  sentFrames
    (run asciiToUpperCase
         (run asciiToUpperCase active [PauseSession; Render])
         [OnAudioProcess [Finite (1 # 2)]; ResumeSession;
          OnAudioProcess [Finite (1 # 4)];
          OnMessage 1000 (textMessage (str "hello"));
          OnAudioProcess [Finite 0]])
  = sentFrames (run asciiToUpperCase active [PauseSession; Render])
  /\ gateClosed
       (run asciiToUpperCase
            (run asciiToUpperCase active [PauseSession; Render])
            [OnAudioProcess [Finite (1 # 2)]; ResumeSession;
             OnAudioProcess [Finite (1 # 4)];
             OnMessage 1000 (textMessage (str "hello"));
             OnAudioProcess [Finite 0]])
     = true.
Proof.
  apply (nothing_sent_while_gate_closed asciiToUpperCase
           [OnAudioProcess [Finite (1 # 2)]; ResumeSession;
            OnAudioProcess [Finite (1 # 4)];
            OnMessage 1000 (textMessage (str "hello"));
            OnAudioProcess [Finite 0]]
           (run asciiToUpperCase active [PauseSession; Render]));
    reflexivity.
Defined.

Lemma step_archive (toUpperCase : list Z -> list Z) (e : Event) (w : Hook) :
  keepsArchive e = true ->
  capturedAudioChunksRef (step toUpperCase w e)
  = capturedAudioChunksRef w ++ framesOf [e].
Proof.
  intros Hk. destruct e; try discriminate; cbn [step framesOf];
    try (destruct w; cbn; rewrite app_nil_r; reflexivity).
  - (* ConnectFulfilled *)
    rewrite connectFulfilled_eq, app_nil_r.
    destruct (sessionPromise w) as [| rs | |]; try reflexivity.
    apply (reactAll_frame rs (set_sessionPromise Fulfilled w)).
  - (* OnMessage *)
    rewrite app_nil_r. unfold onmessage. hook_unfold.
    destruct (modelTurnParts message) as [ps |]; [| reflexivity].
    destruct (truthy_string (responseTextOf ps)); reflexivity.
  - (* OnAudioProcess *)
    destruct w. hook_simpl. rewrite ?createBlob_total. hook_cbn.
    hook_cases; reflexivity.
  - (* PauseSession *)
    destruct w. hook_simpl. hook_cases; rewrite app_nil_r; reflexivity.
  - (* ResumeSession *)
    destruct w. hook_simpl. hook_cases; rewrite app_nil_r; reflexivity.
Qed.

Lemma framesOf_cons (e : Event) (es : list Event) :
  framesOf (e :: es) = framesOf [e] ++ framesOf es.
Proof. destruct e; reflexivity. Qed.

(** X20: between start and stop no archived frame is ever lost or
    reordered.  Whatever the interleaving of frames, messages, pause and
    resume calls, renders and the connection opening, the archive after
    the events is the archive before them followed by the frames they
    delivered, in order. *)
Theorem archive_grows_by_frames (toUpperCase : list Z -> list Z)
    (es : list Event) (w : Hook) :
  forallb keepsArchive es = true ->
  capturedAudioChunksRef (run toUpperCase w es)
  = capturedAudioChunksRef w ++ framesOf es.
Proof.
  revert w. induction es as [| e es IH]; intros w Hes.
  - cbn. rewrite app_nil_r. reflexivity.
  - cbn [forallb] in Hes. apply andb_true_iff in Hes as [He Hes].
    cbn [run foldl]. pose proof (IH (step toUpperCase w e) Hes) as IH'.
    unfold run in IH'. rewrite IH', (step_archive toUpperCase e w He).
    rewrite (framesOf_cons e es), app_assoc. reflexivity.
Qed.

Lemma archive_grows_by_frames_witness :
  capturedAudioChunksRef
    (run asciiToUpperCase active
         [OnAudioProcess [Finite (1 # 2)]; PauseSession; Render;
          OnMessage 1000 (textMessage (str "hello"));
          OnAudioProcess [Finite (1 # 4)]; ResumeSession; Render;
          OnAudioProcess [Finite 0]])
  = capturedAudioChunksRef active
    ++ [[Finite (1 # 2)]; [Finite (1 # 4)]; [Finite 0]].
Proof.
  apply (archive_grows_by_frames asciiToUpperCase
           [OnAudioProcess [Finite (1 # 2)]; PauseSession; Render;
            OnMessage 1000 (textMessage (str "hello"));
            OnAudioProcess [Finite (1 # 4)]; ResumeSession; Render;
            OnAudioProcess [Finite 0]] active).
  reflexivity.
Defined.





(** ** The findings of the result view *)

Lemma split_lines_nonempty (s : list Z) : split_lines s <> [].
Proof.
  destruct s as [| c rest]; cbn [split_lines]; [discriminate |].
  destruct (c =? 10); [discriminate |].
  destruct (split_lines rest); discriminate.
Qed.

Lemma split_lines_no_newline (s : list Z) :
  Forall (fun line => 10 ∉ line) (split_lines s).
Proof.
  induction s as [| c rest IH]; cbn [split_lines].
  - constructor; [| constructor]. apply not_elem_of_nil.
  - destruct (Z.eqb_spec c 10) as [-> | Hc].
    + constructor; [apply not_elem_of_nil | exact IH].
    + destruct (split_lines rest) as [| line lines].
      * constructor; [| constructor]. intros H.
        apply list_elem_of_singleton in H. congruence.
      * inversion IH as [| ? ? Hl Hls]; subst. constructor; [| exact Hls].
        intros H. apply elem_of_cons in H as [H | H]; [congruence | tauto].
Qed.

Lemma trimStart_blank (s : list Z) :
  forallb isWhiteSpace s = true -> trimStart s = [].
Proof.
  induction s as [| c rest IH]; [reflexivity |].
  cbn [forallb trimStart]. intros H. apply andb_true_iff in H as [Hc Hr].
  rewrite Hc. exact (IH Hr).
Qed.

Lemma trimStart_app_space (s : list Z) (c : Z) :
  isWhiteSpace c = true ->
  trimStart (s ++ [c])
  = match trimStart s with [] => [] | t => t ++ [c] end.
Proof.
  intros Hc. induction s as [| a rest IH]; cbn [app trimStart].
  - rewrite Hc. reflexivity.
  - destruct (isWhiteSpace a); [exact IH | reflexivity].
Qed.

Lemma trim_cons_space (c : Z) (s : list Z) :
  isWhiteSpace c = true -> trim (c :: s) = trim s.
Proof. intros Hc. unfold trim. cbn [trimStart]. rewrite Hc. reflexivity. Qed.

Lemma trim_snoc_space (s : list Z) (c : Z) :
  isWhiteSpace c = true -> trim (s ++ [c]) = trim s.
Proof.
  intros Hc. unfold trim. rewrite (trimStart_app_space s c Hc).
  destruct (trimStart s) as [| a t]; [reflexivity |].
  unfold trimEnd. rewrite reverse_snoc. cbn [trimStart]. rewrite Hc.
  reflexivity.
Qed.

Lemma split_lines_snoc (s : list Z) (c : Z) :
  exists (lines : list (list Z)) (line : list Z),
    split_lines s = lines ++ [line]
    /\ split_lines (s ++ [c])
       = if c =? 10 then lines ++ [line; []] else lines ++ [line ++ [c]].
Proof.
  induction s as [| a rest IH].
  - exists [], []. split; [reflexivity |]. cbn.
    destruct (c =? 10); reflexivity.
  - destruct IH as (lines & line & E & E'). cbn [app split_lines].
    rewrite E', E. destruct (a =? 10).
    + exists ([] :: lines), line. split; [reflexivity |].
      destruct (c =? 10); reflexivity.
    + destruct lines as [| l ls]; cbn [app].
      * exists [], (a :: line). split; [reflexivity |].
        destruct (c =? 10); reflexivity.
      * exists ((a :: l) :: ls), line. split; [reflexivity |].
        destruct (c =? 10); reflexivity.
Qed.

Lemma processedText_cons_space (c : Z) (s : list Z) :
  isWhiteSpace c = true ->
  map trim (processedText (c :: s)) = map trim (processedText s).
Proof.
  intros Hc. unfold processedText. cbn [split_lines].
  destruct (c =? 10).
  - rewrite filter_cons. destruct (decide (trim [] <> [])) as [H | H];
      [destruct H; reflexivity | reflexivity].
  - destruct (split_lines s) as [| line lines] eqn:E;
      [destruct (split_lines_nonempty s E) |].
    rewrite !filter_cons, (trim_cons_space c line Hc).
    destruct (decide (trim line <> [])); cbn [map];
      rewrite ?(trim_cons_space c line Hc); reflexivity.
Qed.

Lemma processedText_snoc_space (s : list Z) (c : Z) :
  isWhiteSpace c = true ->
  map trim (processedText (s ++ [c])) = map trim (processedText s).
Proof.
  intros Hc. unfold processedText.
  destruct (split_lines_snoc s c) as (lines & line & E & E').
  rewrite E', E. destruct (c =? 10).
  - rewrite (filter_app _ lines [line; []]), (filter_app _ lines [line]).
    rewrite !map_app. f_equal.
  - rewrite !filter_app, !map_app. f_equal.
    rewrite !filter_cons, !filter_nil, (trim_snoc_space line c Hc).
    destruct (decide (trim line <> [])); cbn [map];
      rewrite ?(trim_snoc_space line c Hc); reflexivity.
Qed.

Lemma processedText_app_blank (before s after : list Z) :
  forallb isWhiteSpace before = true ->
  forallb isWhiteSpace after = true ->
  map trim (processedText (before ++ s ++ after))
  = map trim (processedText s).
Proof.
  intros Hb Ha. induction before as [| c before IH].
  - cbn [app]. clear Hb. revert Ha.
    induction after as [| c after IH] using rev_ind; intros Ha.
    + rewrite app_nil_r. reflexivity.
    + rewrite forallb_app in Ha. apply andb_true_iff in Ha as [Ha Hc].
      cbn [forallb] in Hc. rewrite andb_true_r in Hc.
      rewrite app_assoc, (processedText_snoc_space _ c Hc). exact (IH Ha).
  - cbn [forallb] in Hb. apply andb_true_iff in Hb as [Hc Hb].
    cbn [app]. rewrite (processedText_cons_space c _ Hc). exact (IH Hb).
Qed.

(** X22: the findings shown after a live session.  [handleLiveDictationComplete]
    splits the transcript that [stopSession] returned into lines and drops
    the blank ones.  No finding is blank or contains a line break, and the
    trimming done by [stopSession] loses no line: up to white space at
    the ends of lines, the findings are the non-blank lines of the stored
    buffer, in order. *)
Theorem findings_after_stop (w : Hook) :
  isSessionActiveForCallback w = true ->
  exists result : StopResult,
    fst (stopSession w) = Return result
    /\ Forall (fun line => trim line <> [] /\ 10 ∉ line)
              (processedText (transcript result))
    /\ map trim (processedText (transcript result))
       = map trim (processedText (bufferRef w)).
Proof.
  intros Hact. rewrite (stopSession_eq w Hact). eexists.
  split; [reflexivity |]. cbn [transcript]. split.
  - unfold processedText. apply Forall_forall. intros line Hl.
    apply list_elem_of_filter in Hl as [Hn Hl]. split; [exact Hn |].
    pose proof (split_lines_no_newline (trim (bufferRef w))) as Hs.
    rewrite Forall_forall in Hs. exact (Hs line Hl).
  - destruct (trim_split (bufferRef w)) as (before & after & E & H1 & H2).
    rewrite E at 2. symmetry. apply processedText_app_blank; assumption.
Qed.

Lemma findings_after_stop_witness :
  exists result : StopResult,
    fst (stopSession dictating) = Return result
    /\ Forall (fun line => trim line <> [] /\ 10 ∉ line)
              (processedText (transcript result))
    /\ map trim (processedText (transcript result))
       = map trim (processedText (bufferRef dictating)).
Proof. apply (findings_after_stop dictating). reflexivity. Defined.

(** X23: a transcript made of white space only (in particular the empty
    transcript of a session in which nothing was said) gives no finding
    at all, not a list with one empty finding. *)
Theorem processedText_blank (transcript : list Z) :
  forallb isWhiteSpace transcript = true ->
  processedText transcript = [].
Proof.
  intros H.
  pose proof (processedText_app_blank transcript [] [] H eq_refl) as E.
  rewrite app_nil_r in E. change (processedText []) with (@nil (list Z)) in E.
  destruct (processedText transcript); [reflexivity | discriminate].
Qed.

Lemma processedText_blank_witness :
  processedText (str " ") = [] /\ processedText [10; 32; 10] = [].
Proof.
  split; [apply (processedText_blank (str " ")) |
          apply (processedText_blank [10; 32; 10])]; reflexivity.
Defined.

(** X24: editing a finding.  [handleUpdateFinding] never changes the
    number of findings, whatever the index (an index outside the array
    would make a JavaScript assignment extend it): at an index of the
    array the finding becomes the new text, every other finding is kept. *)
Theorem handleUpdateFinding_spec (findings : list (list Z)) (index : Z)
    (newText : list Z) :
  let newFindings := handleUpdateFinding findings index newText in
  length newFindings = length findings
  /\ (forall j : nat, Z.of_nat j <> index -> newFindings !! j = findings !! j)
  /\ (forall j : nat, Z.of_nat j = index -> (j < length findings)%nat ->
      newFindings !! j = Some newText)
  /\ (~ (0 <= index < Z.of_nat (length findings)) -> newFindings = findings).
Proof.
  cbv zeta. unfold handleUpdateFinding.
  destruct (Z.leb_spec 0 index) as [H0 | H0];
    destruct (Z.ltb_spec index (Z.of_nat (length findings))) as [H1 | H1];
    cbn [andb].
  - split; [apply length_insert |]. split; [| split].
    + intros j Hj. apply list_lookup_insert_ne. lia.
    + intros j Hj Hl. subst index. rewrite Nat2Z.id.
      apply list_lookup_insert_eq. exact Hl.
    + intros H. lia.
  - split; [reflexivity |]. split; [reflexivity |]. split; [| reflexivity].
    intros j Hj Hl. lia.
  - split; [reflexivity |]. split; [reflexivity |]. split; [| reflexivity].
    intros j Hj Hl. lia.
  - split; [reflexivity |]. split; [reflexivity |]. split; [| reflexivity].
    intros j Hj Hl. lia.
Qed.

(** ** The recorder hook *)

Lemma find_in_MimeTypes (isTypeSupported : list Z -> bool) (type : list Z) :
  List.find isTypeSupported AudioRecorder.MimeTypes = Some type ->
  In type AudioRecorder.MimeTypes /\ isTypeSupported type = true
  /\ truthy_string type = true.
Proof.
  intros H. apply List.find_some in H as [Hin Hs].
  split; [exact Hin |]. split; [exact Hs |].
  cbn in Hin. destruct Hin as [<- | [<- | [<- | [<- | [<- | []]]]]];
    reflexivity.
Qed.

(** X25: the format label of a recording.  After a start the stored
    label is always one of the five preferred types: the first one, in
    the order of preference, that the browser supports, and then the
    recorder is constructed with it; when the browser supports none of
    them the recorder is constructed without options, with the browser's
    own format, while the label is audio/ogg all the same. *)
Theorem startRecording_mimeType (isTypeSupported : list Z -> bool)
    (w : AudioRecorder.Recorder) :
  let w' := AudioRecorder.startRecording_granted isTypeSupported None w in
  In (AudioRecorder.mimeTypeRef w') AudioRecorder.MimeTypes
  /\ (forall type : list Z,
        List.find isTypeSupported AudioRecorder.MimeTypes = Some type ->
        AudioRecorder.mimeTypeRef w' = type
        /\ isTypeSupported type = true
        /\ AudioRecorder.mediaRecorderRef w'
           = Some {| AudioRecorder.state := AudioRecorder.recording;
                     AudioRecorder.options := Some type |})
  /\ (List.find isTypeSupported AudioRecorder.MimeTypes = None ->
      AudioRecorder.mimeTypeRef w' = str "audio/ogg"
      /\ isTypeSupported (AudioRecorder.mimeTypeRef w') = false
      /\ AudioRecorder.mediaRecorderRef w'
         = Some {| AudioRecorder.state := AudioRecorder.recording;
                   AudioRecorder.options := None |}).
Proof.
  cbv zeta. unfold AudioRecorder.startRecording_granted.
  destruct (List.find isTypeSupported AudioRecorder.MimeTypes) as [t |] eqn:E.
  - destruct (find_in_MimeTypes isTypeSupported t E) as (Hin & Hs & Ht).
    rewrite Ht. cbn -[AudioRecorder.MimeTypes]. rewrite Ht.
    split; [exact Hin |]. split; [| discriminate].
    intros type [= <-]. split; [reflexivity |]. split; [exact Hs | reflexivity].
  - cbn -[AudioRecorder.MimeTypes str].
    split; [cbn; tauto |]. split; [discriminate |]. intros _.
    split; [reflexivity |]. split; [| reflexivity].
    apply (List.find_none _ _ E). cbn. tauto.
Qed.

Lemma act_keeps (a : AudioRecorder.Action) (w : AudioRecorder.Recorder) :
  AudioRecorder.notInactive w = true ->
  let w' := AudioRecorder.act w a in
  AudioRecorder.notInactive w' = true
  /\ AudioRecorder.audioChunksRef w'
     = AudioRecorder.audioChunksRef w ++ AudioRecorder.dataOf [a]
  /\ AudioRecorder.mimeTypeRef w' = AudioRecorder.mimeTypeRef w
  /\ AudioRecorder.streamRef w' = AudioRecorder.streamRef w
  /\ AudioRecorder.tracksStopped w' = AudioRecorder.tracksStopped w
  /\ AudioRecorder.mediaRequests w' = AudioRecorder.mediaRequests w.
Proof.
  intros H. destruct w as [r p e m cs t s mr ts].
  unfold AudioRecorder.notInactive in H. cbn in H.
  destruct m as [[st o] |]; [| discriminate].
  destruct a; destruct st; try discriminate; cbn;
    rewrite ?app_nil_r; repeat split; reflexivity.
Qed.

Lemma dataOf_cons (a : AudioRecorder.Action)
    (actions : list AudioRecorder.Action) :
  AudioRecorder.dataOf (a :: actions)
  = AudioRecorder.dataOf [a] ++ AudioRecorder.dataOf actions.
Proof. destruct a; reflexivity. Qed.

Lemma actions_keep (actions : list AudioRecorder.Action) :
  forall w : AudioRecorder.Recorder,
    AudioRecorder.notInactive w = true ->
    let w' := foldl AudioRecorder.act w actions in
    AudioRecorder.notInactive w' = true
    /\ AudioRecorder.audioChunksRef w'
       = AudioRecorder.audioChunksRef w ++ AudioRecorder.dataOf actions
    /\ AudioRecorder.mimeTypeRef w' = AudioRecorder.mimeTypeRef w
    /\ AudioRecorder.streamRef w' = AudioRecorder.streamRef w
    /\ AudioRecorder.tracksStopped w' = AudioRecorder.tracksStopped w
    /\ AudioRecorder.mediaRequests w' = AudioRecorder.mediaRequests w.
Proof.
  induction actions as [| a actions IH]; intros w H.
  - cbn. rewrite app_nil_r. repeat split; try reflexivity. exact H.
  - cbn [foldl]. destruct (act_keeps a w H) as (N & C & T & S & K & R).
    cbv zeta in *. destruct (IH _ N) as (N' & C' & T' & S' & K' & R').
    rewrite C', T', S', K', R', C, T, S, K, R, (dataOf_cons a actions).
    rewrite <- app_assoc. repeat split; try reflexivity. exact N'.
Qed.

(** X26: a whole recording.  Starting on a hook that is not recording
    requests the device; once it is granted, whatever chunks of an
    earlier recording were left are dropped.  Then, whatever the
    interleaving of data events, pauses, resumptions and further calls of
    [startRecording], the first [stopRecording] waits for the recorder,
    and when the recorder has delivered its last chunk and stopped the
    promise resolves with the chunks of this recording, all of them and
    in order, labelled with the type chosen at the start; the tracks are
    stopped once and the refs and the state are cleared. *)
Theorem recording_cycle (isTypeSupported : list Z -> bool)
    (actions : list AudioRecorder.Action) (final : Blob)
    (w : AudioRecorder.Recorder) :
  AudioRecorder.notInactive w = false ->
  let started := AudioRecorder.startRecording true w in
  let w1 := AudioRecorder.startRecording_granted isTypeSupported None
              (snd started) in
  let w2 := foldl AudioRecorder.act w1 actions in
  let stopping := AudioRecorder.stopRecording w2 in
  let stopped :=
    AudioRecorder.onstop (AudioRecorder.ondataavailable final (snd stopping))
  in
  fst started = true
  /\ fst stopping = AudioRecorder.Waiting
  /\ blobBytes (fst stopped)
     = concat (map blobBytes (AudioRecorder.dataOf actions ++ [final]))
  /\ blobType (fst stopped) = AudioRecorder.mimeTypeRef w1
  /\ AudioRecorder.isRecording (snd stopped) = false
  /\ AudioRecorder.isPaused (snd stopped) = false
  /\ AudioRecorder.mediaRecorderRef (snd stopped) = None
  /\ AudioRecorder.streamRef (snd stopped) = false
  /\ AudioRecorder.tracksStopped (snd stopped)
     = S (AudioRecorder.tracksStopped w)
  /\ AudioRecorder.mediaRequests (snd stopped)
     = S (AudioRecorder.mediaRequests w).
Proof.
  intros Hw started w1 w2 stopping stopped.
  assert (Es : started
               = (true,
                  AudioRecorder.set_mediaRequests
                    (S (AudioRecorder.mediaRequests w))
                    (AudioRecorder.set_error None w))).
  { subst started. unfold AudioRecorder.startRecording.
    replace (AudioRecorder.notInactive (AudioRecorder.set_error None w))
      with false by (rewrite <- Hw; destruct w; reflexivity).
    reflexivity. }
  assert (N1 : AudioRecorder.notInactive w1 = true) by reflexivity.
  assert (C1 : AudioRecorder.audioChunksRef w1 = []) by reflexivity.
  assert (S1 : AudioRecorder.streamRef w1 = true) by reflexivity.
  assert (K1 : AudioRecorder.tracksStopped w1
               = AudioRecorder.tracksStopped w).
  { subst w1. rewrite Es. reflexivity. }
  assert (R1 : AudioRecorder.mediaRequests w1
               = S (AudioRecorder.mediaRequests w)).
  { subst w1. rewrite Es. reflexivity. }
  destruct (actions_keep actions w1 N1) as (N & C & T & S & K & R).
  fold w2 in N, C, T, S, K, R. cbv zeta in *.
  rewrite C1 in C. cbn [app] in C. rewrite S1 in S.
  rewrite K1 in K. rewrite R1 in R.
  split; [rewrite Es; reflexivity |].
  clearbody w1 w2. clear Es started.
  subst stopping stopped. unfold AudioRecorder.stopRecording.
  rewrite N. unfold AudioRecorder.notInactive in N.
  destruct w2 as [r p e m cs t s mr ts]. cbn in *.
  destruct m as [[st o] |]; [| discriminate]. subst.
  cbn. repeat split; reflexivity.
Qed.

Lemma recording_cycle_witness :
  let isTypeSupported := fun type : list Z =>
    bool_decide (type = str "audio/webm; codecs=opus") in
  let a := {| blobBytes := [1; 2]; blobType := [] |} in
  let b := {| blobBytes := [3]; blobType := [] |} in
  let actions :=
    [AudioRecorder.DataAvailable a; AudioRecorder.PauseRecording;
     AudioRecorder.StartRecording true; AudioRecorder.ResumeRecording] in
  let w := AudioRecorder.initial in
  let started := AudioRecorder.startRecording true w in
  let w1 := AudioRecorder.startRecording_granted isTypeSupported None
              (snd started) in
  let w2 := foldl AudioRecorder.act w1 actions in
  let stopping := AudioRecorder.stopRecording w2 in
  let stopped :=
    AudioRecorder.onstop (AudioRecorder.ondataavailable b (snd stopping))
  in
  fst started = true
  /\ fst stopping = AudioRecorder.Waiting
  /\ blobBytes (fst stopped)
     = concat (map blobBytes (AudioRecorder.dataOf actions ++ [b]))
  /\ blobType (fst stopped) = AudioRecorder.mimeTypeRef w1
  /\ AudioRecorder.isRecording (snd stopped) = false
  /\ AudioRecorder.isPaused (snd stopped) = false
  /\ AudioRecorder.mediaRecorderRef (snd stopped) = None
  /\ AudioRecorder.streamRef (snd stopped) = false
  /\ AudioRecorder.tracksStopped (snd stopped)
     = S (AudioRecorder.tracksStopped w)
  /\ AudioRecorder.mediaRequests (snd stopped)
     = S (AudioRecorder.mediaRequests w).
Proof.
  apply (recording_cycle
           (fun type : list Z =>
              bool_decide (type = str "audio/webm; codecs=opus"))
           [AudioRecorder.DataAvailable
              {| blobBytes := [1; 2]; blobType := [] |};
            AudioRecorder.PauseRecording;
            AudioRecorder.StartRecording true;
            AudioRecorder.ResumeRecording]
           {| blobBytes := [3]; blobType := [] |}
           AudioRecorder.initial).
  reflexivity.
Defined.

(** X27: only the first caller of [stopRecording] gets the recording.
    On a recorder that is recording or paused the first call waits for
    the recorder to stop; a second call made before that resolves at once
    with an empty blob, whatever has been recorded, and changes nothing. *)
Theorem stopRecording_twice (w : AudioRecorder.Recorder) :
  AudioRecorder.notInactive w = true ->
  let first := AudioRecorder.stopRecording w in
  let second := AudioRecorder.stopRecording (snd first) in
  fst first = AudioRecorder.Waiting
  /\ fst second
     = AudioRecorder.Resolved
         {| blobBytes := []; blobType := AudioRecorder.mimeTypeRef w |}
  /\ snd second = snd first
  /\ AudioRecorder.audioChunksRef (snd first)
     = AudioRecorder.audioChunksRef w.
Proof.
  intros H. cbv zeta. unfold AudioRecorder.notInactive in H.
  destruct w as [r p e m cs t s mr ts]. cbn in H.
  destruct m as [[st o] |]; [| discriminate].
  destruct st; [discriminate | |]; cbn; repeat split; reflexivity.
Qed.

Lemma stopRecording_twice_witness :
  let w :=
    AudioRecorder.ondataavailable {| blobBytes := [7]; blobType := [] |}
      (AudioRecorder.startRecording_granted (fun _ => true) None
         AudioRecorder.initial) in
  let first := AudioRecorder.stopRecording w in
  let second := AudioRecorder.stopRecording (snd first) in
  fst first = AudioRecorder.Waiting
  /\ fst second
     = AudioRecorder.Resolved
         {| blobBytes := []; blobType := AudioRecorder.mimeTypeRef w |}
  /\ snd second = snd first
  /\ AudioRecorder.audioChunksRef (snd first)
     = AudioRecorder.audioChunksRef w.
Proof.
  apply (stopRecording_twice
           (AudioRecorder.ondataavailable
              {| blobBytes := [7]; blobType := [] |}
              (AudioRecorder.startRecording_granted (fun _ => true) None
                 AudioRecorder.initial))).
  reflexivity.
Defined.
